(** * Redis-backed cache facade with call instrumentation

    A shallow embedding of [0x02-redis_basic/exercise.py]: the decorators
    [count_calls] and [call_history], the reporting function [replay] and
    the class [Cache] ([__init__], [store], [get], [get_str], [get_int]).

    Python values the program handles are a small tagged union; [bytes] are
    Rocq strings (sequences of 8-bit characters), [str] are lists of
    Unicode code points.  The Redis server is an explicit database in the
    state that every operation threads, together with the entropy consumed
    by [uuid.uuid4] and the lines written by [print]. *)

From Stdlib Require Import ZArith Ascii String List Lia Bool.
From Stdlib Require Import Floats.SpecFloat.
From stdpp Require Import base option list gmap strings fin_maps.

Local Open Scope string_scope.
Local Open Scope list_scope.
Local Open Scope Z_scope.

(** ** Bytes and text *)

(** Python [bytes]: a sequence of 8-bit values. *)
Abbreviation pybytes := string.

(** Python [str]: a sequence of code points. *)
Definition pystr := list Z.

Definition byte_val (a : ascii) : Z := Z.of_N (N_of_ascii a).
Definition byte_of (z : Z) : ascii := ascii_of_N (Z.to_N z).

Definition codes (b : pybytes) : list Z := map byte_val (list_ascii_of_string b).
Definition of_codes (l : list Z) : pybytes := string_of_list_ascii (map byte_of l).

(** A text literal of the program: each character is its own code point. *)
Definition str_lit (s : string) : pystr := codes s.

Definition is_ascii (s : pystr) : Prop := Forall (λ c, 0 <= c < 128) s.

Module Utf8.

(** The bytes of one code point; surrogates and values outside
    [0, 0x10FFFF] have no encoding. *)
Definition encode_cp (c : Z) : option (list Z) :=
  if c <? 0 then None
  else if c <? 0x80 then Some [c]
  else if c <? 0x800 then Some [0xC0 + c / 64; 0x80 + c mod 64]
  else if c <? 0x10000 then
    if (0xD800 <=? c) && (c <=? 0xDFFF) then None
    else Some [0xE0 + c / 4096; 0x80 + (c / 64) mod 64; 0x80 + c mod 64]
  else if c <? 0x110000 then
    Some [0xF0 + c / 262144; 0x80 + (c / 4096) mod 64;
          0x80 + (c / 64) mod 64; 0x80 + c mod 64]
  else None.

Fixpoint encode_codes (s : pystr) : option (list Z) :=
  match s with
  | [] => Some []
  | c :: s' =>
      match encode_cp c, encode_codes s' with
      | Some bs, Some rest => Some (bs ++ rest)
      | _, _ => None
      end
  end.

(** [s.encode('utf-8')] with the strict error handler. *)
Definition encode (s : pystr) : option pybytes :=
  of_codes <$> encode_codes s.

Definition is_cont (b : Z) : bool := (0x80 <=? b) && (b <=? 0xBF).

(** The strict decoder: shortest forms only, no surrogates, nothing above
    0x10FFFF. *)
Fixpoint decode_codes (bs : list Z) : option pystr :=
  match bs with
  | [] => Some []
  | b0 :: t0 =>
      if b0 <? 0x80 then cons b0 <$> decode_codes t0
      else if b0 <? 0xC2 then None
      else if b0 <? 0xE0 then
        match t0 with
        | b1 :: t1 =>
            if is_cont b1
            then cons ((b0 - 0xC0) * 64 + (b1 - 0x80)) <$> decode_codes t1
            else None
        | _ => None
        end
      else if b0 <? 0xF0 then
        match t0 with
        | b1 :: b2 :: t2 =>
            if ((if b0 =? 0xE0 then 0xA0 else 0x80) <=? b1)
               && (b1 <=? (if b0 =? 0xED then 0x9F else 0xBF))
               && is_cont b2
            then cons ((b0 - 0xE0) * 4096 + (b1 - 0x80) * 64 + (b2 - 0x80))
                   <$> decode_codes t2
            else None
        | _ => None
        end
      else if b0 <? 0xF5 then
        match t0 with
        | b1 :: b2 :: b3 :: t3 =>
            if ((if b0 =? 0xF0 then 0x90 else 0x80) <=? b1)
               && (b1 <=? (if b0 =? 0xF4 then 0x8F else 0xBF))
               && is_cont b2 && is_cont b3
            then cons ((b0 - 0xF0) * 262144 + (b1 - 0x80) * 4096
                       + (b2 - 0x80) * 64 + (b3 - 0x80))
                   <$> decode_codes t3
            else None
        | _ => None
        end
      else None
  end.

(** [b.decode('utf-8')]. *)
Definition decode (b : pybytes) : option pystr := decode_codes (codes b).

End Utf8.

(** ** Decimal and hexadecimal renderings *)

Module Numeral.

Definition is_digit (c : Z) : bool := (48 <=? c) && (c <=? 57).

(** Digits of a non-negative number, most significant first. *)
Fixpoint digits_fuel (fuel : nat) (n : Z) (acc : list Z) : list Z :=
  match fuel with
  | O => acc
  | S f =>
      let acc' := (48 + n mod 10) :: acc in
      if n <? 10 then acc' else digits_fuel f (n / 10) acc'
  end.

Definition nat_digits (n : Z) : list Z :=
  digits_fuel (S (Z.to_nat (Z.log2 n))) n [].

(** [repr] of a Python [int]: a minus sign for negatives, no leading
    zeros. *)
Definition int_digits (z : Z) : pystr :=
  if z <? 0 then 45 :: nat_digits (- z) else nat_digits z.

Definition digits_value (ds : list Z) : Z :=
  fold_left (fun a d => 10 * a + (d - 48)) ds 0.

Definition hexdigit (d : Z) : Z := if d <? 10 then 48 + d else 87 + d.

(** [n] written with exactly [width] lower-case hexadecimal digits. *)
Fixpoint hex_fixed (width : nat) (n : Z) : list Z :=
  match width with
  | O => []
  | S w => hex_fixed w (n / 16) ++ [hexdigit (n mod 16)]
  end.

End Numeral.

(** ** Python values and the runtime *)

Inductive pyval :=
| PNone
| PBool (b : bool)
| PInt (z : Z)
| PFloat (f : spec_float)
| PStr (s : pystr)
| PBytes (b : pybytes).

Inductive exn :=
| TypeError
| AttributeError
| ValueError
| UnicodeEncodeError
| UnicodeDecodeError
| DataError
| ResponseError.

(** What the embedding takes from the Python runtime and the operating
    system without modelling it: the rendering of floating-point numbers,
    the Unicode character database for characters from 127 on, and the
    bytes [os.urandom(16)] returns, as a 128-bit number per call. *)
Class runtime := {
  float_repr : spec_float → pystr;
  uc_isprintable : Z → bool;
  uc_isspace : Z → bool;
  uc_todecimal : Z → option Z;
  os_urandom16 : nat → Z
}.

Fixpoint strip_zeros (rev_digits : list Z) : list Z :=
  match rev_digits with
  | 48 :: ds => strip_zeros ds
  | _ => rev_digits
  end.

Definition fraction_digits (k : nat) (n : Z) : list Z :=
  let ds := Numeral.nat_digits n in
  match rev (strip_zeros (rev (replicate (k - length ds) 48 ++ ds))) with
  | [] => [48]
  | ds' => ds'
  end.

(** The exact decimal expansion of a binary floating-point number, the
    fraction without trailing zeros.  It is what Python prints for the
    numbers the examples below use, such as 1.5; the shortest-digits
    rendering of the other numbers is not modelled. *)
Definition exact_float_repr (f : spec_float) : pystr :=
  match f with
  | S754_nan => str_lit "nan"
  | S754_infinity s => if s then str_lit "-inf" else str_lit "inf"
  | S754_zero s => if s then str_lit "-0.0" else str_lit "0.0"
  | S754_finite s m e =>
      let sign := if s then [45] else [] in
      if 0 <=? e then sign ++ Numeral.nat_digits (Z.pos m * 2 ^ e) ++ str_lit ".0"
      else
        let n := Z.pos m * 5 ^ (- e) in
        sign ++ Numeral.nat_digits (n / 10 ^ (- e)) ++ [46]
          ++ fraction_digits (Z.to_nat (- e)) (n mod 10 ^ (- e))
  end.



(** A runtime to evaluate the program with: no character from 127 on is
    printable, a space or a digit; the random bytes count up. *)
Definition ascii_runtime : runtime :=
  {| float_repr := exact_float_repr;
     uc_isprintable := fun _ => false;
     uc_isspace := fun _ => false;
     uc_todecimal := fun _ => None;
     os_urandom16 := fun n => 0x123456789abcdef0123456789abcdef0 + Z.of_nat n |}.

(** ** The Redis server

    The store is not part of the repository.  Its operations follow the
    contract the spec gives for it (section 6); where that contract is
    silent, on a key that holds the other kind of value, the server's error
    reply is modelled, which the client raises as [ResponseError]. *)

Module Redis.

Inductive rvalue :=
| RString (s : pybytes)
| RList (l : list pybytes).

Inductive reply (A : Type) :=
| Reply (a : A)
| WrongType
| NotInteger.
Arguments Reply {A} a.
Arguments WrongType {A}.
Arguments NotInteger {A}.

(** The strict integer syntax of the server: an optional minus sign and
    digits, no leading zero, no sign on zero. *)
Definition string2ll (s : pybytes) : option Z :=
  match codes s with
  | [] => None
  | c :: cs =>
      if (c =? 48) && bool_decide (cs = []) then Some 0
      else
        let negative := c =? 45 in
        match (if negative then cs else c :: cs) with
        | d :: ds =>
            if (49 <=? d) && (d <=? 57) && forallb Numeral.is_digit ds
            then
              let v := Numeral.digits_value (d :: ds) in
              Some (if negative then - v else v)
            else None
        | [] => None
        end
  end.

(** Modelled from the spec: [SET key value], "unconditional overwrite",
    whatever [key] held. *)
Definition SET (key value : pybytes) (d : gmap string rvalue) : gmap string rvalue :=
  <[key := RString value]> d.

(** Modelled from the spec: [GET key] "returns payload or
    missing-sentinel". *)
Definition GET (key : pybytes) (d : gmap string rvalue) : reply (option pybytes) :=
  match d !! key with
  | None => Reply None
  | Some (RString s) => Reply (Some s)
  | Some (RList _) => WrongType
  end.

(** Modelled from the spec: the external store's [INCR key], "atomic
    increment of a counter stored at key; creates at zero if absent".
    The counter is the decimal text of an integer, as [GET] returns it;
    the spec's contract puts no bound on it, so none is modelled. *)
Definition INCR (key : pybytes) (d : gmap string rvalue) : reply Z * gmap string rvalue :=
  match d !! key with
  | None => (Reply 1, <[key := RString (of_codes (Numeral.int_digits 1))]> d)
  | Some (RString s) =>
      match string2ll s with
      | Some n => (Reply (n + 1), <[key := RString (of_codes (Numeral.int_digits (n + 1)))]> d)
      | None => (NotInteger, d)
      end
  | Some (RList _) => (WrongType, d)
  end.

(** Modelled from the spec: [RPUSH key value], "atomic append to an ordered
    list at key", created when absent; the reply is the new length. *)
Definition RPUSH (key value : pybytes) (d : gmap string rvalue) : reply Z * gmap string rvalue :=
  match d !! key with
  | None => (Reply 1, <[key := RList [value]]> d)
  | Some (RList l) => (Reply (Z.of_nat (length l) + 1), <[key := RList (l ++ [value])]> d)
  | Some (RString _) => (WrongType, d)
  end.

(** The elements from [start] to [stop], both inclusive, negative indices
    counting from the end. *)
Definition slice {A} (l : list A) (start stop : Z) : list A :=
  let llen := Z.of_nat (length l) in
  let start := if start <? 0 then llen + start else start in
  let stop := if stop <? 0 then llen + stop else stop in
  let start := if start <? 0 then 0 else start in
  if (stop <? start) || (llen <=? start) then []
  else
    let stop := if llen <=? stop then llen - 1 else stop in
    take (Z.to_nat (stop - start + 1)) (drop (Z.to_nat start) l).

(** Modelled from the spec: [LRANGE key start end] "returns an ordered
    sub-sequence of a list (inclusive bounds; end = -1 denotes through last
    element)"; an absent key is an empty list. *)
Definition LRANGE (key : pybytes) (start stop : Z) (d : gmap string rvalue) : reply (list pybytes) :=
  match d !! key with
  | None => Reply []
  | Some (RList l) => Reply (slice l start stop)
  | Some (RString _) => WrongType
  end.

(** Modelled from the spec: [FLUSHDB] "destructively clears all data". *)
Definition FLUSHDB (d : gmap string rvalue) : gmap string rvalue := ∅.

End Redis.

(** ** State and effects *)

Record world := {
  db : gmap string Redis.rvalue;   (* the server's database *)
  entropy : nat;                   (* calls of [os.urandom] so far *)
  stdout : list pystr              (* the lines printed, oldest first *)
}.

Definition set_db (d : gmap string Redis.rvalue) (w : world) : world :=
  {| db := d; entropy := entropy w; stdout := stdout w |}.

Inductive outcome (A : Type) :=
| Ok (a : A)
| Raise (e : exn).
Arguments Ok {A} a.
Arguments Raise {A} e.

#[global] Instance outcome_fmap : FMap outcome := fun A B f o =>
  match o with
  | Ok a => Ok (f a)
  | Raise e => Raise e
  end.

(** A computation reads and changes the world and returns or raises; what
    it changed before raising stays changed. *)
Definition M (A : Type) : Type := world → outcome A * world.

Definition ret {A} (a : A) : M A := fun w => (Ok a, w).

Definition bind {A B} (m : M A) (k : A → M B) : M B :=
  fun w =>
    match m w with
    | (Ok a, w') => k a w'
    | (Raise e, w') => (Raise e, w')
    end.

(** [try: m except Exception: h]. *)
Definition try_except {A} (m : M A) (h : M A) : M A :=
  fun w =>
    match m w with
    | (Ok a, w') => (Ok a, w')
    | (Raise _, w') => h w'
    end.

Notation "x <- m ;; k" := (bind m (fun x => k))
  (at level 100, m at next level, right associativity).
Notation "m ;;; k" := (bind m (fun _ => k))
  (at level 100, right associativity).

(** A step that only computes: no effect besides returning or raising. *)
Definition lift {A} (o : outcome A) : M A := fun w => (o, w).

Definition or_raise {A} (e : exn) (o : option A) : outcome A :=
  match o with
  | Some a => Ok a
  | None => Raise e
  end.

(** [print(line)]. *)
Definition print (line : pystr) : M unit :=
  fun w => (Ok tt, {| db := db w; entropy := entropy w; stdout := stdout w ++ [line] |}).

(** ** Renderings that need no runtime table *)

Definition has_char (c : Z) (s : list Z) : bool := existsb (Z.eqb c) s.

(** Python quotes with an apostrophe (39) unless the text has an apostrophe
    and no double quote (34). *)
Definition repr_quote (s : list Z) : Z :=
  if has_char 39 s && negb (has_char 34 s) then 34 else 39.

Definition bytes_repr_char (quote c : Z) : list Z :=
  if (c =? quote) || (c =? 92) then [92; c]
  else if c =? 9 then [92; 116]
  else if c =? 10 then [92; 110]
  else if c =? 13 then [92; 114]
  else if (c <? 32) || (127 <=? c) then 92 :: 120 :: Numeral.hex_fixed 2 c
  else [c].

(** [repr] of a [bytes] object. *)
Definition bytes_repr (b : pybytes) : pystr :=
  let q := repr_quote (codes b) in
  98 :: q :: concat (map (bytes_repr_char q) (codes b)) ++ [q].

(** [UUID(bytes=..., version=4)]: the variant and version bits are forced. *)
Definition uuid_int (r : Z) : Z :=
  let i := r mod 2 ^ 128 in
  let i := Z.land i (Z.lnot (Z.shiftl 0xc000 48)) in
  let i := Z.lor i (Z.shiftl 0x8000 48) in
  let i := Z.land i (Z.lnot (Z.shiftl 0xf000 64)) in
  Z.lor i (Z.shiftl 4 76).

(** [str(uuid)]: 32 hexadecimal digits in groups of 8-4-4-4-12. *)
Definition uuid_str (i : Z) : pystr :=
  let h := Numeral.hex_fixed 32 i in
  take 8 h ++ [45] ++ take 4 (drop 8 h) ++ [45] ++ take 4 (drop 12 h)
    ++ [45] ++ take 4 (drop 16 h) ++ [45] ++ drop 20 h.

(** The key a call of [store] writes under: the text of the UUID as bytes. *)
Definition uuid_key (i : Z) : pybytes := of_codes (uuid_str i).

(** White space of [Py_ISSPACE]. *)
Definition py_isspace (c : Z) : bool := (c =? 32) || ((9 <=? c) && (c <=? 13)).

Fixpoint skip_spaces (s : list Z) : list Z :=
  match s with
  | c :: s' => if py_isspace c then skip_spaces s' else s
  | [] => []
  end.

(** The digits of a literal, underscores allowed one at a time between
    digits; [prev_us] tells that the previous character was one.  Returns
    the digits and what follows them. *)
Fixpoint scan_digits (prev_us : bool) (s : list Z) : option (list Z * list Z) :=
  match s with
  | c :: s' =>
      if Numeral.is_digit c then
        match scan_digits false s' with
        | Some (ds, rest) => Some (c :: ds, rest)
        | None => None
        end
      else if c =? 95 then
        if prev_us then None else scan_digits true s'
      else if prev_us then None else Some ([], s)
  | [] => if prev_us then None else Some ([], [])
  end.

(** [PyLong_FromString] in base 10 on an ASCII buffer. *)
Definition long_from_string (s : list Z) : option Z :=
  let s := skip_spaces s in
  let negative := match s with c :: _ => c =? 45 | [] => false end in
  let s :=
    match s with
    | c :: s' => if (c =? 43) || (c =? 45) then s' else s
    | [] => []
    end in
  if match s with c :: _ => c =? 95 | [] => false end then None
  else
    match scan_digits false s with
    | Some (d :: ds, rest) =>
        if bool_decide (skip_spaces rest = []) then
          let v := Numeral.digits_value (d :: ds) in
          Some (if negative then - v else v)
        else None
    | _ => None
    end.

(** A Python method: its [__qualname__] and what its body does with the
    positional arguments and the keyword arguments of a call, as [*args]
    and [**kwargs] collect them: the names of the keyword arguments are
    distinct and none is that of the first parameter, [self], which is the
    one [Cache] and stays implicit. *)
Record pymethod := {
  qualname : pystr;
  call : list pyval → list (string * pyval) → M pyval
}.

Fixpoint for_each {A} (l : list A) (body : A → M unit) : M unit :=
  match l with
  | [] => ret tt
  | x :: l' => body x ;;; for_each l' body
  end.

(** An error reply of the server is raised by the client. *)
Definition on_reply {A} (r : Redis.reply A) : outcome A :=
  match r with
  | Redis.Reply a => Ok a
  | _ => Raise ResponseError
  end.

(** [v.decode('utf-8')]: only [bytes] have the method. *)
Definition decode_utf8 (v : pyval) : M pyval :=
  lift match v with
       | PBytes b => PStr <$> or_raise UnicodeDecodeError (Utf8.decode b)
       | _ => Raise AttributeError
       end.






Section Program.

Context {rt : runtime}.

(** *** [repr], [str] and [int] *)

Definition str_repr_char (quote c : Z) : list Z :=
  if (c =? quote) || (c =? 92) then [92; c]
  else if c =? 9 then [92; 116]
  else if c =? 10 then [92; 110]
  else if c =? 13 then [92; 114]
  else if (c <? 32) || (c =? 127) then 92 :: 120 :: Numeral.hex_fixed 2 c
  else if c <? 127 then [c]
  else if uc_isprintable c then [c]
  else if c <=? 0xff then 92 :: 120 :: Numeral.hex_fixed 2 c
  else if c <=? 0xffff then 92 :: 117 :: Numeral.hex_fixed 4 c
  else 92 :: 85 :: Numeral.hex_fixed 8 c.

(** [repr] of a [str]. *)
Definition str_repr (s : pystr) : pystr :=
  let q := repr_quote s in
  q :: concat (map (str_repr_char q) s) ++ [q].

Definition py_repr (v : pyval) : pystr :=
  match v with
  | PNone => str_lit "None"
  | PBool true => str_lit "True"
  | PBool false => str_lit "False"
  | PInt z => Numeral.int_digits z
  | PFloat f => float_repr f
  | PStr s => str_repr s
  | PBytes b => bytes_repr b
  end.

(** [str(v)], which is also what an f-string field renders. *)
Definition py_str (v : pyval) : pystr :=
  match v with
  | PStr s => s
  | _ => py_repr v
  end.

Fixpoint join_reprs (vs : list pyval) : pystr :=
  match vs with
  | [] => []
  | [v] => py_repr v
  | v :: vs' => py_repr v ++ str_lit ", " ++ join_reprs vs'
  end.

(** [str(args)] for the tuple of positional arguments. *)
Definition tuple_str (args : list pyval) : pystr :=
  match args with
  | [v] => str_lit "(" ++ py_repr v ++ str_lit ",)"
  | _ => str_lit "(" ++ join_reprs args ++ str_lit ")"
  end.

(** Decimal digits and spaces of the whole character set become ASCII,
    anything else from 127 on becomes a question mark. *)
Definition to_ascii_decimal (c : Z) : Z :=
  if c <? 127 then c
  else if uc_isspace c then 32
  else match uc_todecimal c with
       | Some d => if (0 <=? d) && (d <=? 9) then 48 + d else 63
       | None => 63
       end.

(** [int(s)] for a [str].  The bound that recent interpreters put on the
    number of digits is not modelled. *)
Definition py_int (s : pystr) : option Z :=
  long_from_string (map to_ascii_decimal s).

(** *** The Redis client *)

(** How the client turns an argument into bytes. *)
Definition encode_arg (v : pyval) : outcome pybytes :=
  match v with
  | PBytes b => Ok b
  | PBool _ => Raise DataError
  | PInt _ | PFloat _ => or_raise UnicodeEncodeError (Utf8.encode (py_repr v))
  | PStr s => or_raise UnicodeEncodeError (Utf8.encode s)
  | PNone => Raise DataError
  end.

Definition redis_encode (v : pyval) : M pybytes := lift (encode_arg v).

Definition redis_set (key value : pyval) : M pyval :=
  k <- redis_encode key ;;
  v <- redis_encode value ;;
  fun w => (Ok (PBool true), set_db (Redis.SET k v (db w)) w).

Definition redis_get (key : pyval) : M pyval :=
  k <- redis_encode key ;;
  fun w =>
    match Redis.GET k (db w) with
    | Redis.Reply None => (Ok PNone, w)
    | Redis.Reply (Some b) => (Ok (PBytes b), w)
    | _ => (Raise ResponseError, w)
    end.

Definition redis_incr (key : pyval) : M pyval :=
  k <- redis_encode key ;;
  fun w =>
    let '(r, d) := Redis.INCR k (db w) in
    (PInt <$> on_reply r, set_db d w).

Definition redis_rpush (key value : pyval) : M pyval :=
  k <- redis_encode key ;;
  v <- redis_encode value ;;
  fun w =>
    let '(r, d) := Redis.RPUSH k v (db w) in
    (PInt <$> on_reply r, set_db d w).

Definition redis_lrange (key : pyval) (start stop : Z) : M (list pybytes) :=
  k <- redis_encode key ;;
  fun w => (on_reply (Redis.LRANGE k start stop (db w)), w).

Definition redis_flushdb : M pyval :=
  fun w => (Ok (PBool true), set_db (Redis.FLUSHDB (db w)) w).

(** [uuid.uuid4()]. *)
Definition uuid4 : M Z :=
  fun w =>
    (Ok (uuid_int (os_urandom16 (entropy w))),
     {| db := db w; entropy := S (entropy w); stdout := stdout w |}).

(** *** The program *)

(** [count_calls] (exercise.py, lines 11-26).  [wraps] keeps the qualified
    name of the method on the wrapper. *)
Definition count_calls (method : pymethod) : pymethod :=
  let key := qualname method in
  {| qualname := qualname method;
     call := fun args kwargs =>
       redis_incr (PStr key) ;;;
       call method args kwargs |}.

(** [call_history] (lines 29-49). *)
Definition call_history (method : pymethod) : pymethod :=
  {| qualname := qualname method;
     call := fun args kwargs =>
       let input_key := qualname method ++ str_lit ":inputs" in
       let output_key := qualname method ++ str_lit ":outputs" in
       output <- call method args kwargs ;;
       redis_rpush (PStr input_key) (PStr (tuple_str args)) ;;;
       redis_rpush (PStr output_key) (PStr (py_str output)) ;;;
       ret output |}.

(** [replay] (lines 52-79); its own client talks to the same server. *)
Definition replay (fn : pymethod) : M unit :=
  let f_name := qualname fn in
  n_calls <- redis_get (PStr f_name) ;;
  n_calls <- try_except (decode_utf8 n_calls) (ret (PInt 0)) ;;
  print (f_name ++ str_lit " was called " ++ py_str n_calls ++ str_lit " times:") ;;;
  ins <- redis_lrange (PStr (f_name ++ str_lit ":inputs")) 0 (-1) ;;
  outs <- redis_lrange (PStr (f_name ++ str_lit ":outputs")) 0 (-1) ;;
  for_each (combine ins outs) (fun io =>
    i <- try_except (decode_utf8 (PBytes io.1)) (ret (PStr [])) ;;
    o <- try_except (decode_utf8 (PBytes io.2)) (ret (PStr [])) ;;
    print (f_name ++ str_lit "(" ++ str_lit "*" ++ py_str i ++ str_lit ") -> " ++ py_str o)).

End Program.

(** How a call binds the parameter [data] of [store(self, data)]. *)
Definition bind_data (args : list pyval) (kwargs : list (string * pyval)) : outcome pyval :=
  match args, kwargs with
  | [data], [] => Ok data
  | [], [(name, data)] => if String.eqb name "data" then Ok data else Raise TypeError
  | _, _ => Raise TypeError
  end.

(** The class [Cache]; its attribute [_redis] is the connection to the one
    server, whose database is in the state. *)
Module Cache.
Section Methods.

Context {rt : runtime}.

(** [__init__] (lines 87-90). *)
Definition __init__ : M unit :=
  redis_flushdb ;;; ret tt.

(** The body of [store] (lines 94-106), before decoration. *)
Definition store_body : pymethod :=
  {| qualname := str_lit "Cache.store";
     call := fun args kwargs =>
       data <- lift (bind_data args kwargs) ;;
       u <- uuid4 ;;
       let key := uuid_str u in
       redis_set (PStr key) data ;;;
       ret (PStr key) |}.

(** [store], decorated first with [call_history], then with [count_calls]. *)
Definition store : pymethod := count_calls (call_history store_body).

(** [get] (lines 108-122); a function passed as [fn] is true for [if fn]. *)
Definition get (key : pyval) (fn : option (pyval → M pyval)) : M pyval :=
  data <- redis_get key ;;
  match fn with
  | Some f => f data
  | None => ret data
  end.

(** [get_str] (lines 124-135). *)
Definition get_str (key : pyval) : M pyval :=
  variable <- redis_get key ;;
  decode_utf8 variable.

(** [get_int] (lines 137-152). *)
Definition get_int (key : pyval) : M pyval :=
  variable <- redis_get key ;;
  variable <- try_except
    (s <- decode_utf8 variable ;;
     lift match s with
          | PStr s => PInt <$> or_raise ValueError (py_int s)
          | _ => Raise TypeError
          end)
    (ret (PInt 0)) ;;
  ret variable.

End Methods.
End Cache.

(** A sequence of calls of one method, each outcome recorded; a call that
    raises does not stop the sequence. *)
Fixpoint run_calls (m : pymethod) (calls : list (list pyval * list (string * pyval)))
  : world → list (outcome pyval) * world :=
  fun w =>
    match calls with
    | [] => ([], w)
    | (args, kwargs) :: rest =>
        let '(r, w1) := call m args kwargs w in
        let '(rs, w2) := run_calls m rest w1 in
        (r :: rs, w2)
    end.

(** The lists [replay] reads, as the server holds them. *)
Definition history_inputs (w : world) : outcome (list pybytes) :=
  on_reply (Redis.LRANGE "Cache.store:inputs" 0 (-1) (db w)).


(** *** Vocabulary of the statements *)

(** The counter of [Cache.store] after [n] calls: no key before the first
    call, then the decimal text of [n]. *)
Definition counter_holds (d : gmap string Redis.rvalue) (n : nat) : Prop :=
  d !! "Cache.store"
  = match n with
    | O => None
    | S _ => Some (Redis.RString (of_codes (Numeral.int_digits (Z.of_nat n))))
    end.

(** The list at [key]: no key while it is empty. *)
Definition list_holds (key : pybytes) (d : gmap string Redis.rvalue)
    (l : list pybytes) : Prop :=
  d !! key = match l with [] => None | _ => Some (Redis.RList l) end.

(** The three instrumentation keys of [Cache.store] together. *)
Definition instrumented (d : gmap string Redis.rvalue) (n : nat)
    (ins outs : list pybytes) : Prop :=
  counter_holds d n ∧ list_holds "Cache.store:inputs" d ins
  ∧ list_holds "Cache.store:outputs" d outs.

(** The calls of a sequence that returned, each with what it returned. *)
Fixpoint returned (calls : list (list pyval * list (string * pyval)))
    (rs : list (outcome pyval)) : list (list pyval * pyval) :=
  match calls, rs with
  | (args, _) :: calls', Ok out :: rs' => (args, out) :: returned calls' rs'
  | _ :: calls', Raise _ :: rs' => returned calls' rs'
  | _, _ => []
  end.

(** The text a report shows for a stored entry: its UTF-8 decoding, empty
    when it has none. *)
Definition entry_text (b : pybytes) : pystr := default [] (Utf8.decode b).

Definition report_line (f_name : pystr) (io : pybytes * pybytes) : pystr :=
  f_name ++ str_lit "(" ++ str_lit "*" ++ entry_text io.1 ++ str_lit ") -> " ++ entry_text io.2.

(** The count a report shows for the payload under the counter key. *)
Definition count_text (payload : option pybytes) : pystr :=
  match payload with
  | Some b => default (str_lit "0") (Utf8.decode b)
  | None => str_lit "0"
  end.

Definition report_header (f_name : pystr) (payload : option pybytes) : pystr :=
  f_name ++ str_lit " was called " ++ count_text payload ++ str_lit " times:".

Definition add_lines (ls : list pystr) (w : world) : world :=
  {| db := db w; entropy := entropy w; stdout := stdout w ++ ls |}.

(** The operation of the spec's replay example: called with ["a"] it
    returns ["k1"], with anything else ["k2"]. *)
Definition op_sample : pymethod :=
  {| qualname := str_lit "op";
     call := fun args _ =>
       ret (match args with
            | [PStr s] =>
                if bool_decide (s = str_lit "a") then PStr (str_lit "k1")
                else PStr (str_lit "k2")
            | _ => PStr (str_lit "k2")
            end) |}.

Definition empty_world : world := {| db := ∅; entropy := 0; stdout := [] |}.

(** The key [k] counts [n]: it holds the decimal text of [n], or nothing
    when nothing was counted yet. *)
Definition counter_at (k : pybytes) (d : gmap string Redis.rvalue) (n : Z) : Prop :=
  d !! k = Some (Redis.RString (of_codes (Numeral.int_digits n)))
  ∨ (d !! k = None ∧ n = 0).

(** The keys generated between the states [w] and [w']: one for each
    draw of random bytes that [uuid4] made in between. *)
Definition generated_keys {rt : runtime} (w w' : world) : list pybytes :=
  map (λ j, uuid_key (uuid_int (os_urandom16 j)))
    (seq (entropy w) (entropy w' - entropy w)).

(** * Properties *)

Section Properties.

Context {rt : runtime}.

(** ** Bytes *)

Lemma byte_val_of (z : Z) : 0 <= z < 256 → byte_val (byte_of z) = z.
Proof.
  intros Hz. unfold byte_val, byte_of.
  rewrite N_ascii_embedding; lia.
Qed.

Lemma byte_of_val (a : ascii) : byte_of (byte_val a) = a.
Proof.
  unfold byte_val, byte_of. rewrite N2Z.id. apply ascii_N_embedding.
Qed.

Lemma codes_of_codes (l : list Z) :
  Forall (λ z, 0 <= z < 256) l → codes (of_codes l) = l.
Proof.
  intros Hl. unfold codes, of_codes.
  rewrite list_ascii_of_string_of_list_ascii.
  induction Hl as [|z l Hz _ IH]; simpl; [done|].
  by rewrite byte_val_of, IH.
Qed.

Lemma of_codes_length (l : list Z) : String.length (of_codes l) = length l.
Proof.
  unfold of_codes. induction l as [|z l IH]; simpl; [done|]. by rewrite IH.
Qed.

(** ** UTF-8 *)

Ltac zsolve := Z.to_euclidean_division_equations; lia.

Ltac decide_tests :=
  repeat match goal with
  | |- context [?a <? ?b] =>
      first [ rewrite (proj2 (Z.ltb_lt a b)) by zsolve
            | rewrite (proj2 (Z.ltb_ge a b)) by zsolve ]
  | |- context [?a <=? ?b] =>
      first [ rewrite (proj2 (Z.leb_le a b)) by zsolve
            | rewrite (proj2 (Z.leb_gt a b)) by zsolve ]
  | |- context [?a =? ?b] =>
      first [ rewrite (proj2 (Z.eqb_eq a b)) by zsolve
            | rewrite (proj2 (Z.eqb_neq a b)) by zsolve ]
  end.

Lemma encode_cp_range (c : Z) (bs : list Z) :
  Utf8.encode_cp c = Some bs → Forall (λ z, 0 <= z < 256) bs.
Proof.
  unfold Utf8.encode_cp.
  repeat match goal with
  | |- context [?a <? ?b] => destruct (Z.ltb_spec a b)
  | |- context [?a && ?b] => destruct (a && b)
  end; intros [= <-]; repeat constructor; zsolve.
Qed.

Lemma decode_encode_cp (c : Z) (bs rest : list Z) :
  Utf8.encode_cp c = Some bs →
  Utf8.decode_codes (bs ++ rest) = cons c <$> Utf8.decode_codes rest.
Proof.
  unfold Utf8.encode_cp.
  destruct (Z.ltb_spec c 0); [done|].
  destruct (Z.ltb_spec c 0x80).
  { intros [= <-]. cbn [app Utf8.decode_codes]. by decide_tests. }
  destruct (Z.ltb_spec c 0x800).
  { intros [= <-]. cbn [app Utf8.decode_codes]. unfold Utf8.is_cont.
    decide_tests. cbn [andb]. do 2 f_equal. zsolve. }
  destruct (Z.ltb_spec c 0x10000).
  { destruct (Z.leb_spec 0xD800 c), (Z.leb_spec c 0xDFFF); cbn [andb]; try done;
      intros [= <-]; cbn [app Utf8.decode_codes]; unfold Utf8.is_cont;
      destruct (Z.eq_dec (0xE0 + c / 4096) 0xED), (Z.eq_dec (0xE0 + c / 4096) 0xE0);
      try (exfalso; zsolve);
      decide_tests; cbn [andb]; do 2 f_equal; zsolve. }
  destruct (Z.ltb_spec c 0x110000); [|done].
  intros [= <-]. cbn [app Utf8.decode_codes]. unfold Utf8.is_cont.
  destruct (Z.eq_dec (0xF0 + c / 262144) 0xF0), (Z.eq_dec (0xF0 + c / 262144) 0xF4);
    try (exfalso; zsolve);
    decide_tests; cbn [andb]; do 2 f_equal; zsolve.
Qed.

Lemma encode_codes_range (s : pystr) (bs : list Z) :
  Utf8.encode_codes s = Some bs → Forall (λ z, 0 <= z < 256) bs.
Proof.
  revert bs. induction s as [|c s IH]; simpl; intros bs.
  { intros [= <-]. constructor. }
  destruct (Utf8.encode_cp c) as [b|] eqn:Hc; [|done].
  destruct (Utf8.encode_codes s) as [r|]; [|done].
  intros [= <-]. apply Forall_app. split; eauto using encode_cp_range.
Qed.

Lemma decode_encode_codes (s : pystr) (bs : list Z) :
  Utf8.encode_codes s = Some bs → Utf8.decode_codes bs = Some s.
Proof.
  revert bs. induction s as [|c s IH]; simpl; intros bs.
  { by intros [= <-]. }
  destruct (Utf8.encode_cp c) as [b|] eqn:Hc; [|done].
  destruct (Utf8.encode_codes s) as [r|]; [|done].
  intros [= <-]. rewrite (decode_encode_cp c b r Hc), (IH r eq_refl). done.
Qed.

(** Whatever [encode] produces, [decode] reads back. *)
Lemma utf8_roundtrip (s : pystr) (b : pybytes) :
  Utf8.encode s = Some b → Utf8.decode b = Some s.
Proof.
  unfold Utf8.encode, Utf8.decode.
  destruct (Utf8.encode_codes s) as [bs|] eqn:He; [|done].
  intros [= <-]. rewrite codes_of_codes by eauto using encode_codes_range.
  by apply decode_encode_codes.
Qed.

Lemma encode_codes_ascii (s : pystr) : is_ascii s → Utf8.encode_codes s = Some s.
Proof.
  induction 1 as [|c s Hc _ IH]; simpl; [done|].
  rewrite IH. unfold Utf8.encode_cp. by decide_tests.
Qed.

Lemma utf8_encode_ascii (s : pystr) : is_ascii s → Utf8.encode s = Some (of_codes s).
Proof.
  intros Hs. unfold Utf8.encode. by rewrite encode_codes_ascii.
Qed.

Lemma utf8_decode_ascii (s : pystr) : is_ascii s → Utf8.decode (of_codes s) = Some s.
Proof.
  intros Hs. by apply utf8_roundtrip, utf8_encode_ascii.
Qed.

Lemma is_ascii_app (s t : pystr) : is_ascii s → is_ascii t → is_ascii (s ++ t).
Proof. intros; by apply Forall_app. Qed.

(** ** Decimal renderings *)

Lemma digits_value_snoc (ds : list Z) (d : Z) :
  Numeral.digits_value (ds ++ [d]) = 10 * Numeral.digits_value ds + (d - 48).
Proof. unfold Numeral.digits_value. by rewrite fold_left_app. Qed.

Lemma digits_fuel_acc (fuel : nat) (n : Z) (acc : list Z) :
  Numeral.digits_fuel fuel n acc = Numeral.digits_fuel fuel n [] ++ acc.
Proof.
  revert n acc. induction fuel as [|f IH]; intros n acc; simpl; [done|].
  destruct (n <? 10); [done|].
  rewrite (IH _ (_ :: acc)), (IH _ [_]), <- app_assoc. done.
Qed.

Lemma digits_fuel_step (f : nat) (n : Z) :
  Numeral.digits_fuel (S f) n []
  = if n <? 10 then [48 + n mod 10]
    else Numeral.digits_fuel f (n / 10) [] ++ [48 + n mod 10].
Proof. simpl. destruct (n <? 10); [done|]. apply digits_fuel_acc. Qed.

Lemma digits_fuel_digits (fuel : nat) (n : Z) :
  0 <= n → Forall (λ c, 48 <= c <= 57) (Numeral.digits_fuel fuel n []).
Proof.
  revert n. induction fuel as [|f IH]; intros n Hn; [constructor|].
  rewrite digits_fuel_step. destruct (Z.ltb_spec n 10).
  - repeat constructor; zsolve.
  - apply Forall_app. split; [apply IH; zsolve|repeat constructor; zsolve].
Qed.

Lemma digits_fuel_value (fuel : nat) (n : Z) :
  0 <= n < 2 ^ Z.of_nat fuel →
  Numeral.digits_value (Numeral.digits_fuel fuel n []) = n.
Proof.
  revert n. induction fuel as [|f IH]; intros n Hn.
  { simpl in *. unfold Numeral.digits_value. simpl. lia. }
  rewrite digits_fuel_step. destruct (Z.ltb_spec n 10).
  - unfold Numeral.digits_value. simpl. zsolve.
  - rewrite digits_value_snoc, IH; [zsolve|].
    rewrite Nat2Z.inj_succ, Z.pow_succ_r in Hn by lia.
    generalize dependent (2 ^ Z.of_nat f). intros p Hp. zsolve.
Qed.

(** A positive number has a first digit, and it is not zero. *)
Lemma digits_fuel_head (fuel : nat) (n : Z) :
  1 <= n < 2 ^ Z.of_nat fuel →
  ∃ d ds, Numeral.digits_fuel fuel n [] = d :: ds ∧ 49 <= d <= 57.
Proof.
  revert n. induction fuel as [|f IH]; intros n Hn.
  { simpl in Hn. lia. }
  rewrite digits_fuel_step. destruct (Z.ltb_spec n 10).
  - eexists _, _. split; [done|]. zsolve.
  - destruct (IH (n / 10)) as (d & ds & -> & Hd).
    + rewrite Nat2Z.inj_succ, Z.pow_succ_r in Hn by lia.
      generalize dependent (2 ^ Z.of_nat f). intros p Hp. zsolve.
    + eexists _, _. split; [done|]. done.
Qed.

Lemma nat_digits_fuel (n : Z) :
  0 <= n → 0 <= n < 2 ^ Z.of_nat (S (Z.to_nat (Z.log2 n))).
Proof.
  intros Hn. split; [done|].
  rewrite Nat2Z.inj_succ, Z2Nat.id by apply Z.log2_nonneg.
  destruct (Z.eq_dec n 0) as [->|]; [done|].
  apply Z.log2_spec. lia.
Qed.

Lemma nat_digits_digits (n : Z) :
  0 <= n → Forall (λ c, 48 <= c <= 57) (Numeral.nat_digits n).
Proof. apply digits_fuel_digits. Qed.

Lemma nat_digits_value (n : Z) :
  0 <= n → Numeral.digits_value (Numeral.nat_digits n) = n.
Proof. intros Hn. by apply digits_fuel_value, nat_digits_fuel. Qed.

Lemma nat_digits_cons (n : Z) :
  0 <= n → ∃ d ds, Numeral.nat_digits n = d :: ds ∧ 48 <= d <= 57
                   ∧ (1 <= n → 49 <= d).
Proof.
  intros Hn. destruct (Z.eq_dec n 0) as [->|].
  { exists 48, []. split; [done|]. lia. }
  destruct (digits_fuel_head (S (Z.to_nat (Z.log2 n))) n) as (d & ds & Hd & ?).
  { pose proof (nat_digits_fuel n). lia. }
  exists d, ds. split; [done|]. lia.
Qed.

Lemma int_digits_ascii (z : Z) : is_ascii (Numeral.int_digits z).
Proof.
  unfold Numeral.int_digits, is_ascii. destruct (Z.ltb_spec z 0).
  - constructor; [lia|].
    eapply Forall_impl; [apply nat_digits_digits; lia|]. simpl. lia.
  - eapply Forall_impl; [by apply nat_digits_digits|]. simpl. lia.
Qed.

Lemma forallb_is_digit (ds : list Z) :
  Forall (λ c, 48 <= c <= 57) ds → forallb Numeral.is_digit ds = true.
Proof.
  induction 1 as [|d ds Hd _ IH]; simpl; [done|].
  rewrite IH. unfold Numeral.is_digit. by decide_tests.
Qed.

Lemma scan_digits_all (ds : list Z) :
  Forall (λ c, 48 <= c <= 57) ds → scan_digits false ds = Some (ds, []).
Proof.
  induction 1 as [|d ds Hd _ IH]; simpl; [done|].
  rewrite IH. unfold Numeral.is_digit. by decide_tests.
Qed.

(** [int] reads back what [repr] wrote. *)
Lemma long_from_string_int_digits (z : Z) :
  long_from_string (Numeral.int_digits z) = Some z.
Proof.
  unfold Numeral.int_digits. destruct (Z.ltb_spec z 0) as [Hz|Hz].
  - destruct (nat_digits_cons (- z)) as (d & ds & Hd & Hr & _); [lia|].
    pose proof (nat_digits_digits (- z) ltac:(lia)) as Hall.
    pose proof (nat_digits_value (- z) ltac:(lia)) as Hval.
    rewrite Hd in *. unfold long_from_string.
    cbn [skip_spaces]. unfold py_isspace. decide_tests. cbn [orb andb].
    decide_tests. cbn [orb]. decide_tests.
    rewrite scan_digits_all by done. cbn [skip_spaces].
    rewrite bool_decide_eq_true_2 by done. f_equal. lia.
  - destruct (nat_digits_cons z) as (d & ds & Hd & Hr & _); [lia|].
    pose proof (nat_digits_digits z ltac:(lia)) as Hall.
    pose proof (nat_digits_value z ltac:(lia)) as Hval.
    rewrite Hd in *. unfold long_from_string.
    cbn [skip_spaces]. unfold py_isspace. decide_tests. cbn [orb andb].
    decide_tests. cbn [orb]. decide_tests.
    rewrite scan_digits_all by done. cbn [skip_spaces].
    rewrite bool_decide_eq_true_2 by done. f_equal. lia.
Qed.

(** The server reads a positive count back from its decimal text. *)
Lemma string2ll_nat_digits (n : Z) :
  1 <= n → Redis.string2ll (of_codes (Numeral.nat_digits n)) = Some n.
Proof.
  intros Hn. unfold Redis.string2ll.
  pose proof (nat_digits_digits n ltac:(lia)) as Hall.
  pose proof (nat_digits_value n ltac:(lia)) as Hval.
  rewrite codes_of_codes by (eapply Forall_impl; [done|]; simpl; lia).
  destruct (nat_digits_cons n) as (d & ds & Hd & Hr & Hd1); [lia|].
  rewrite Hd in *. specialize (Hd1 Hn).
  decide_tests. cbn [andb]. decide_tests. cbn [andb].
  rewrite forallb_is_digit by by inversion Hall.
  by rewrite Hval.
Qed.

(** ** Generated keys *)

Lemma hexdigit_ascii (d : Z) : 0 <= d < 16 → 0 <= Numeral.hexdigit d < 128.
Proof. unfold Numeral.hexdigit. destruct (d <? 10); lia. Qed.

Lemma hex_fixed_length (width : nat) (n : Z) :
  length (Numeral.hex_fixed width n) = width.
Proof.
  revert n. induction width as [|w IH]; intros n; simpl; [done|].
  rewrite length_app, IH. simpl. lia.
Qed.

Lemma hex_fixed_ascii (width : nat) (n : Z) : is_ascii (Numeral.hex_fixed width n).
Proof.
  revert n. induction width as [|w IH]; intros n; simpl; [constructor|].
  apply is_ascii_app; [apply IH|].
  repeat constructor; apply hexdigit_ascii; zsolve.
Qed.

Lemma uuid_str_length (i : Z) : length (uuid_str i) = 36%nat.
Proof.
  unfold uuid_str.
  repeat rewrite ?length_app, ?length_take, ?length_drop, ?hex_fixed_length.
  simpl. lia.
Qed.

Lemma uuid_str_ascii (i : Z) : is_ascii (uuid_str i).
Proof.
  unfold uuid_str, is_ascii.
  pose proof (hex_fixed_ascii 32 i) as Hh. unfold is_ascii in Hh.
  repeat apply Forall_app_2;
    repeat first [ apply Forall_take | apply Forall_drop ]; try done;
    repeat constructor; lia.
Qed.

Lemma uuid_key_encode (i : Z) : Utf8.encode (uuid_str i) = Some (uuid_key i).
Proof. apply utf8_encode_ascii, uuid_str_ascii. Qed.

Lemma uuid_key_length (i : Z) : String.length (uuid_key i) = 36%nat.
Proof. unfold uuid_key. by rewrite of_codes_length, uuid_str_length. Qed.

Lemma uuid_key_not_reserved (i : Z) :
  uuid_key i ≠ "Cache.store" ∧ uuid_key i ≠ "Cache.store:inputs"
  ∧ uuid_key i ≠ "Cache.store:outputs".
Proof.
  pose proof (uuid_key_length i) as Hl.
  repeat split; intros Heq; rewrite Heq in Hl; discriminate Hl.
Qed.

Lemma counter_key_encode : Utf8.encode (str_lit "Cache.store") = Some "Cache.store".
Proof. reflexivity. Qed.

Lemma inputs_key_encode :
  Utf8.encode (str_lit "Cache.store" ++ str_lit ":inputs") = Some "Cache.store:inputs".
Proof. reflexivity. Qed.

Lemma outputs_key_encode :
  Utf8.encode (str_lit "Cache.store" ++ str_lit ":outputs") = Some "Cache.store:outputs".
Proof. reflexivity. Qed.

(** ** The server's operations on the instrumentation keys *)

Lemma int_digits_nonneg (z : Z) : 0 <= z → Numeral.int_digits z = Numeral.nat_digits z.
Proof. intros Hz. unfold Numeral.int_digits. by decide_tests. Qed.

Lemma INCR_counter (d : gmap string Redis.rvalue) (n : nat) :
  counter_holds d n →
  Redis.INCR "Cache.store" d
  = (Redis.Reply (Z.of_nat (S n)),
     <["Cache.store" := Redis.RString (of_codes (Numeral.int_digits (Z.of_nat (S n))))]> d).
Proof.
  unfold counter_holds, Redis.INCR. intros ->. destruct n as [|n]; [done|].
  rewrite int_digits_nonneg, string2ll_nat_digits by lia.
  by replace (Z.of_nat (S n) + 1) with (Z.of_nat (S (S n))) by lia.
Qed.

Lemma RPUSH_list (key value : pybytes) (d : gmap string Redis.rvalue) (l : list pybytes) :
  list_holds key d l →
  Redis.RPUSH key value d
  = (Redis.Reply (Z.of_nat (length l) + 1), <[key := Redis.RList (l ++ [value])]> d).
Proof.
  unfold list_holds, Redis.RPUSH. intros ->. by destruct l.
Qed.

Lemma list_holds_snoc (key value : pybytes) (d : gmap string Redis.rvalue) (l : list pybytes) :
  list_holds key (<[key := Redis.RList (l ++ [value])]> d) (l ++ [value]).
Proof.
  unfold list_holds. rewrite lookup_insert_eq. by destruct l.
Qed.

Lemma list_holds_insert_ne (key k : pybytes) (v : Redis.rvalue)
    (d : gmap string Redis.rvalue) (l : list pybytes) :
  k ≠ key → list_holds key d l → list_holds key (<[k := v]> d) l.
Proof. unfold list_holds. intros Hne <-. by apply lookup_insert_ne. Qed.

Lemma counter_holds_insert_ne (k : pybytes) (v : Redis.rvalue)
    (d : gmap string Redis.rvalue) (n : nat) :
  k ≠ "Cache.store" → counter_holds d n → counter_holds (<[k := v]> d) n.
Proof. unfold counter_holds. intros Hne <-. by apply lookup_insert_ne. Qed.

Lemma instrumented_insert_ne (k : pybytes) (v : Redis.rvalue)
    (d : gmap string Redis.rvalue) (n : nat) (ins outs : list pybytes) :
  k ≠ "Cache.store" → k ≠ "Cache.store:inputs" → k ≠ "Cache.store:outputs" →
  instrumented d n ins outs → instrumented (<[k := v]> d) n ins outs.
Proof.
  intros ??? (? & ? & ?).
  split_and!; auto using counter_holds_insert_ne, list_holds_insert_ne.
Qed.

Lemma instrumented_empty : instrumented ∅ 0 [] [].
Proof. by split_and!. Qed.

(** ** The steps of the program *)

Lemma bind_unfold {A B} (m : M A) (k : A → M B) (w : world) :
  bind m k w
  = match m w with
    | (Ok a, w') => k a w'
    | (Raise e, w') => (Raise e, w')
    end.
Proof. reflexivity. Qed.

Lemma store_body_call (args : list pyval) (kwargs : list (string * pyval)) (w : world) :
  call (Cache.store_body) args kwargs w
  = match bind_data args kwargs with
    | Raise e => (Raise e, w)
    | Ok data =>
        let u := uuid_int (os_urandom16 (entropy w)) in
        let w1 := {| db := db w; entropy := S (entropy w); stdout := stdout w |} in
        match encode_arg data with
        | Raise e => (Raise e, w1)
        | Ok v => (Ok (PStr (uuid_str u)),
                   set_db (<[uuid_key u := Redis.RString v]> (db w)) w1)
        end
    end.
Proof.
  cbn [call Cache.store_body]. unfold bind at 1. unfold lift at 1.
  destruct (bind_data args kwargs) as [data|e]; [|done].
  unfold bind at 1. unfold uuid4 at 1. cbv zeta.
  unfold redis_set, redis_encode, py_str.
  unfold bind at 1. unfold bind at 1. unfold lift at 1. cbn [encode_arg].
  rewrite uuid_key_encode. cbn [or_raise].
  unfold bind at 1. unfold lift at 1.
  destruct (encode_arg data) as [v|e]; [|done].
  reflexivity.
Qed.

Lemma redis_incr_call (ks : pystr) (k : pybytes) (w : world) :
  Utf8.encode ks = Some k →
  redis_incr (PStr ks) w
  = (PInt <$> on_reply (Redis.INCR k (db w)).1, set_db (Redis.INCR k (db w)).2 w).
Proof.
  intros Hk. unfold redis_incr, redis_encode, bind, lift. cbn [encode_arg].
  rewrite Hk. cbn [or_raise]. by destruct (Redis.INCR k (db w)).
Qed.

Lemma redis_rpush_call (ks vs : pystr) (k : pybytes) (w : world) :
  Utf8.encode ks = Some k →
  redis_rpush (PStr ks) (PStr vs) w
  = match Utf8.encode vs with
    | None => (Raise UnicodeEncodeError, w)
    | Some v =>
        (PInt <$> on_reply (Redis.RPUSH k v (db w)).1,
         set_db (Redis.RPUSH k v (db w)).2 w)
    end.
Proof.
  intros Hk. unfold redis_rpush, redis_encode, bind, lift. cbn [encode_arg].
  rewrite Hk. cbn [or_raise]. destruct (Utf8.encode vs) as [v|]; [|done].
  cbn [or_raise]. by destruct (Redis.RPUSH k v (db w)).
Qed.

Lemma redis_get_call (key : pyval) (w : world) :
  redis_get key w
  = match encode_arg key with
    | Raise e => (Raise e, w)
    | Ok k =>
        match Redis.GET k (db w) with
        | Redis.Reply None => (Ok PNone, w)
        | Redis.Reply (Some b) => (Ok (PBytes b), w)
        | _ => (Raise ResponseError, w)
        end
    end.
Proof.
  unfold redis_get, redis_encode, bind, lift. by destruct (encode_arg key).
Qed.

Lemma redis_lrange_call (ks : pystr) (k : pybytes) (start stop : Z) (w : world) :
  Utf8.encode ks = Some k →
  redis_lrange (PStr ks) start stop w = (on_reply (Redis.LRANGE k start stop (db w)), w).
Proof.
  intros Hk. unfold redis_lrange, redis_encode, bind, lift. cbn [encode_arg].
  by rewrite Hk.
Qed.

(** The history wrapper, step by step: the wrapped call comes first and an
    exception of it ends the call with nothing appended. *)
Lemma call_history_call (method : pymethod) (args : list pyval)
    (kwargs : list (string * pyval)) (w : world) :
  call (call_history method) args kwargs w
  = match call method args kwargs w with
    | (Raise e, w1) => (Raise e, w1)
    | (Ok output, w1) =>
        match redis_rpush (PStr (qualname method ++ str_lit ":inputs"))
                (PStr (tuple_str args)) w1 with
        | (Raise e, w2) => (Raise e, w2)
        | (Ok _, w2) =>
            match redis_rpush (PStr (qualname method ++ str_lit ":outputs"))
                    (PStr (py_str output)) w2 with
            | (Raise e, w3) => (Raise e, w3)
            | (Ok _, w3) => (Ok output, w3)
            end
        end
    end.
Proof.
  cbn [call call_history]. rewrite bind_unfold.
  destruct (call method args kwargs w) as [[output|e] w1]; [|done].
  rewrite bind_unfold. destruct (redis_rpush _ _ w1) as [[?|e] w2]; [|done].
  rewrite bind_unfold. by destruct (redis_rpush _ _ w2) as [[?|e] w3].
Qed.

(** The counting wrapper: the increment comes first, whatever follows. *)
Lemma count_calls_call (method : pymethod) (args : list pyval)
    (kwargs : list (string * pyval)) (w : world) :
  call (count_calls method) args kwargs w
  = match redis_incr (PStr (qualname method)) w with
    | (Raise e, w1) => (Raise e, w1)
    | (Ok _, w1) => call method args kwargs w1
    end.
Proof.
  cbn [call count_calls]. rewrite bind_unfold.
  by destruct (redis_incr _ w) as [[?|e] w1].
Qed.

(** One call of the decorated [Cache.store] on a database whose
    instrumentation keys are in order. *)
Lemma Cache_store_call (args : list pyval) (kwargs : list (string * pyval))
    (w : world) (n : nat) (ins outs : list pybytes) :
  instrumented (db w) n ins outs →
  call Cache.store args kwargs w
  = let d1 := <["Cache.store" :=
                 Redis.RString (of_codes (Numeral.int_digits (Z.of_nat (S n))))]> (db w) in
    match bind_data args kwargs with
    | Raise e => (Raise e, set_db d1 w)
    | Ok data =>
        let u := uuid_int (os_urandom16 (entropy w)) in
        let w1 := {| db := d1; entropy := S (entropy w); stdout := stdout w |} in
        match encode_arg data with
        | Raise e => (Raise e, w1)
        | Ok v =>
            let d2 := <[uuid_key u := Redis.RString v]> d1 in
            match Utf8.encode (tuple_str args) with
            | None => (Raise UnicodeEncodeError, set_db d2 w1)
            | Some i =>
                (Ok (PStr (uuid_str u)),
                 set_db (<["Cache.store:outputs" := Redis.RList (outs ++ [uuid_key u])]>
                           (<["Cache.store:inputs" := Redis.RList (ins ++ [i])]> d2)) w1)
            end
        end
    end.
Proof.
  intros (Hc & Hi & Ho). unfold Cache.store.
  rewrite count_calls_call. cbn [qualname call_history Cache.store_body].
  rewrite (redis_incr_call _ _ _ counter_key_encode), (INCR_counter _ _ Hc).
  cbn [fst snd on_reply fmap outcome_fmap].
  rewrite call_history_call, store_body_call. cbn [qualname Cache.store_body].
  destruct (bind_data args kwargs) as [data|e]; [|done].
  cbn [entropy db stdout set_db]. cbv zeta.
  destruct (encode_arg data) as [v|e]; [|done].
  destruct (uuid_key_not_reserved (uuid_int (os_urandom16 (entropy w))))
    as (Hk1 & Hk2 & Hk3).
  set (u := uuid_int _) in *.
  rewrite (redis_rpush_call _ _ _ _ inputs_key_encode).
  destruct (Utf8.encode (tuple_str args)) as [i|]; [|done].
  cbn [db set_db].
  rewrite (RPUSH_list _ _ _ ins)
    by (do 2 (apply list_holds_insert_ne; [done|]); done).
  cbn [fst snd on_reply fmap outcome_fmap].
  rewrite (redis_rpush_call _ _ _ _ outputs_key_encode).
  cbn [py_str]. rewrite uuid_key_encode. cbn [db set_db].
  rewrite (RPUSH_list _ _ _ outs)
    by (do 3 (apply list_holds_insert_ne; [done|]); done).
  reflexivity.
Qed.

Lemma Cache_store_step (args : list pyval) (kwargs : list (string * pyval))
    (w : world) (n : nat) (ins outs : list pybytes) :
  instrumented (db w) n ins outs →
  match call Cache.store args kwargs w with
  | (Ok out, w') =>
      ∃ i o, Utf8.encode (tuple_str args) = Some i
             ∧ Utf8.encode (py_str out) = Some o
             ∧ instrumented (db w') (S n) (ins ++ [i]) (outs ++ [o])
  | (Raise _, w') => instrumented (db w') (S n) ins outs
  end.
Proof.
  intros Hinv. rewrite (Cache_store_call _ _ _ _ _ _ Hinv). cbv zeta.
  destruct (uuid_key_not_reserved (uuid_int (os_urandom16 (entropy w))))
    as (Hk1 & Hk2 & Hk3).
  set (u := uuid_int _) in *.
  assert (instrumented
            (<["Cache.store" :=
                Redis.RString (of_codes (Numeral.int_digits (Z.of_nat (S n))))]> (db w))
            (S n) ins outs) as Hinv1.
  { destruct Hinv as (Hc & Hi & Ho). split_and!.
    - unfold counter_holds. by rewrite lookup_insert_eq.
    - by apply list_holds_insert_ne.
    - by apply list_holds_insert_ne. }
  destruct (bind_data args kwargs) as [data|e]; [|done].
  destruct (encode_arg data) as [v|e]; [|done].
  destruct (Utf8.encode (tuple_str args)) as [i|] eqn:Hi.
  - exists i, (uuid_key u). split; [done|]. split; [apply uuid_key_encode|].
    cbn [db set_db].
    destruct (instrumented_insert_ne (uuid_key u) (Redis.RString v) _ _ _ _
                Hk1 Hk2 Hk3 Hinv1) as (Hc & _ & _).
    split_and!.
    + by do 2 (apply counter_holds_insert_ne; [done|]).
    + apply list_holds_insert_ne; [done|]. apply list_holds_snoc.
    + apply list_holds_snoc.
  - cbn [db set_db]. by apply instrumented_insert_ne.
Qed.

(** Any sequence of calls keeps the instrumentation keys in order: the
    counter counts every call, the lists grow by the calls that returned. *)
Lemma run_calls_instrumented (calls : list (list pyval * list (string * pyval)))
    (w : world) (n : nat) (ins outs : list pybytes) :
  instrumented (db w) n ins outs →
  ∃ ins' outs',
    instrumented (db (run_calls Cache.store calls w).2)
      (n + length calls) (ins ++ ins') (outs ++ outs')
    ∧ Forall2 (λ c i, Utf8.encode (tuple_str c.1) = Some i)
        (returned calls (run_calls Cache.store calls w).1) ins'
    ∧ Forall2 (λ c o, Utf8.encode (py_str c.2) = Some o)
        (returned calls (run_calls Cache.store calls w).1) outs'.
Proof.
  revert w n ins outs.
  induction calls as [|[args kwargs] calls IH]; intros w n ins outs Hinv.
  { exists [], []. simpl. rewrite !app_nil_r, Nat.add_0_r. by split_and!. }
  pose proof (Cache_store_step args kwargs w n ins outs Hinv) as Hstep.
  cbn [run_calls].
  destruct (call Cache.store args kwargs w) as [[out|e] w1].
  - destruct Hstep as (i & o & Hi & Ho & Hinv1).
    destruct (IH w1 _ _ _ Hinv1) as (ins' & outs' & Hinv2 & Hins & Houts).
    destruct (run_calls Cache.store calls w1) as [rs w2].
    exists (i :: ins'), (o :: outs'). cbn [fst snd returned length] in *.
    rewrite <- !app_assoc in Hinv2. cbn [app] in Hinv2.
    replace (n + S (length calls))%nat with (S n + length calls)%nat by lia.
    split_and!; [done| |]; by constructor.
  - destruct (IH w1 _ _ _ Hstep) as (ins' & outs' & Hinv2 & Hins & Houts).
    destruct (run_calls Cache.store calls w1) as [rs w2].
    exists ins', outs'. cbn [fst snd returned length] in *.
    replace (n + S (length calls))%nat with (S n + length calls)%nat by lia.
    by split_and!.
Qed.

Lemma Cache_init_db (w : world) : db (Cache.__init__ w).2 = ∅.
Proof. reflexivity. Qed.

Lemma to_ascii_decimal_id (s : pystr) :
  Forall (λ c, c < 127) s → map to_ascii_decimal s = s.
Proof.
  induction 1 as [|c s Hc _ IH]; simpl; [done|].
  rewrite IH. unfold to_ascii_decimal. by decide_tests.
Qed.

Lemma int_digits_below_127 (z : Z) : Forall (λ c, c < 127) (Numeral.int_digits z).
Proof.
  unfold Numeral.int_digits. destruct (Z.ltb_spec z 0).
  - constructor; [lia|].
    eapply Forall_impl; [apply nat_digits_digits; lia|]. simpl. lia.
  - eapply Forall_impl; [by apply nat_digits_digits|]. simpl. lia.
Qed.

Lemma py_int_int_digits (z : Z) : py_int (Numeral.int_digits z) = Some z.
Proof.
  unfold py_int. rewrite to_ascii_decimal_id by apply int_digits_below_127.
  apply long_from_string_int_digits.
Qed.

Lemma Cache_get_int_call (key : pyval) (w : world) :
  Cache.get_int key w
  = match redis_get key w with
    | (Raise e, w1) => (Raise e, w1)
    | (Ok (PBytes b), w1) =>
        (Ok (PInt (match Utf8.decode b with
                   | Some s => default 0 (py_int s)
                   | None => 0
                   end)), w1)
    | (Ok _, w1) => (Ok (PInt 0), w1)
    end.
Proof.
  unfold Cache.get_int. rewrite bind_unfold.
  destruct (redis_get key w) as [[v|e] w1]; [|done].
  unfold bind, try_except, decode_utf8, lift, ret.
  destruct v; try done.
  destruct (Utf8.decode b) as [s|]; [|done]. simpl.
  by destruct (py_int s).
Qed.

(** ** The call counter *)

(** C1.  [count_calls] increments the counter under the method's qualified
    name first and only then calls the method, so the increment does not
    depend on how the call ends.  For [Cache.store] on a fresh [Cache]: after
    any sequence of calls, of any arguments, returning or raising, the
    server holds the decimal text of their number under [Cache.store]
    (no key when there was no call), and [get_int] reads that number. *)
Theorem count_calls_counts_every_call
    (w : world) (calls : list (list pyval * list (string * pyval))) :
  let w' := (run_calls Cache.store calls (Cache.__init__ w).2).2 in
  (∀ method args kwargs w0,
      call (count_calls method) args kwargs w0
      = match redis_incr (PStr (qualname method)) w0 with
        | (Raise e, w1) => (Raise e, w1)
        | (Ok _, w1) => call method args kwargs w1
        end)
  ∧ Redis.GET "Cache.store" (db w')
    = Redis.Reply (match calls with
                   | [] => None
                   | _ => Some (of_codes (Numeral.int_digits (Z.of_nat (length calls))))
                   end)
  ∧ (Cache.get_int (PStr (str_lit "Cache.store")) w').1
    = Ok (PInt (Z.of_nat (length calls))).
Proof.
  intros w'. split; [apply count_calls_call|].
  destruct (run_calls_instrumented calls (Cache.__init__ w).2 0 [] [])
    as (ins & outs & (Hc & _ & _) & _).
  { rewrite Cache_init_db. apply instrumented_empty. }
  fold w' in Hc. unfold counter_holds in Hc. cbn [Nat.add] in Hc.
  assert (Redis.GET "Cache.store" (db w')
          = Redis.Reply (match calls with
                         | [] => None
                         | _ => Some (of_codes (Numeral.int_digits (Z.of_nat (length calls))))
                         end)) as Hget.
  { unfold Redis.GET. rewrite Hc. by destruct calls. }
  split; [done|].
  rewrite Cache_get_int_call, redis_get_call. cbn [encode_arg].
  rewrite counter_key_encode. cbn [or_raise]. rewrite Hget.
  destruct calls as [|c calls]; [done|].
  rewrite utf8_decode_ascii by apply int_digits_ascii.
  by rewrite py_int_int_digits.
Qed.

(** ** The call history *)

Lemma slice_all {A} (l : list A) : Redis.slice l 0 (-1) = l.
Proof.
  unfold Redis.slice. cbv zeta.
  change (0 <? 0) with false. change (-1 <? 0) with true. cbv iota.
  destruct l as [|x l]; [done|].
  set (llen := Z.of_nat (length (x :: l))).
  assert (1 <= llen) by (unfold llen; simpl; lia).
  decide_tests. cbn [orb]. decide_tests.
  replace (Z.to_nat (llen + -1 - 0 + 1)) with (length (x :: l)) by lia.
  change (Z.to_nat 0) with 0%nat. rewrite drop_0. apply firstn_all.
Qed.

Lemma LRANGE_list_holds (key : pybytes) (d : gmap string Redis.rvalue) (l : list pybytes) :
  list_holds key d l → Redis.LRANGE key 0 (-1) d = Redis.Reply l.
Proof.
  unfold list_holds, Redis.LRANGE. intros ->. destruct l as [|x l]; [done|].
  by rewrite slice_all.
Qed.



(** C10.  The history wrapper hands the keyword arguments to the wrapped
    method and to nothing else: what it appends to the inputs list is the
    text of the tuple of positional arguments.  For [Cache.store] on a fresh
    [Cache], after any calls: whatever the keyword arguments of the next
    call, the inputs list afterwards is the list before it followed, when the
    call returned, by the UTF-8 bytes of [str(args)]; so two calls that
    differ only in keyword arguments leave the same entry. *)
Theorem call_history_ignores_kwargs
    (w : world) (calls : list (list pyval * list (string * pyval))) (args : list pyval) :
  let w0 := (run_calls Cache.store calls (Cache.__init__ w).2).2 in
  (∀ method kwargs w1,
      call (call_history method) args kwargs w1
      = match call method args kwargs w1 with
        | (Raise e, w2) => (Raise e, w2)
        | (Ok output, w2) =>
            match redis_rpush (PStr (qualname method ++ str_lit ":inputs"))
                    (PStr (tuple_str args)) w2 with
            | (Raise e, w3) => (Raise e, w3)
            | (Ok _, w3) =>
                match redis_rpush (PStr (qualname method ++ str_lit ":outputs"))
                        (PStr (py_str output)) w3 with
                | (Raise e, w4) => (Raise e, w4)
                | (Ok _, w4) => (Ok output, w4)
                end
            end
        end)
  ∧ ∃ ins,
      history_inputs w0 = Ok ins
      ∧ ∀ kwargs,
          history_inputs (call Cache.store args kwargs w0).2
          = Ok (match (call Cache.store args kwargs w0).1, Utf8.encode (tuple_str args) with
                | Ok _, Some i => ins ++ [i]
                | _, _ => ins
                end).
Proof.
  intros w0. split; [intros; apply call_history_call|].
  destruct (run_calls_instrumented calls (Cache.__init__ w).2 0 [] [])
    as (ins & outs & Hinv & _).
  { rewrite Cache_init_db. apply instrumented_empty. }
  fold w0 in Hinv. cbn [app] in Hinv.
  exists ins. split.
  { unfold history_inputs. destruct Hinv as (_ & Hi & _).
    by rewrite (LRANGE_list_holds _ _ _ Hi). }
  intros kwargs.
  pose proof (Cache_store_step args kwargs w0 _ _ _ Hinv) as Hstep.
  unfold history_inputs.
  destruct (call Cache.store args kwargs w0) as [[out|e] w1]; cbn [fst snd].
  - destruct Hstep as (i & o & -> & _ & (_ & Hi & _)).
    by rewrite (LRANGE_list_holds _ _ _ Hi).
  - destruct Hstep as (_ & Hi & _).
    by rewrite (LRANGE_list_holds _ _ _ Hi).
Qed.

(** ** Replay *)

Lemma add_lines_nil (w : world) : add_lines [] w = w.
Proof. destruct w. unfold add_lines. simpl. by rewrite app_nil_r. Qed.

Lemma add_lines_app (ls1 ls2 : list pystr) (w : world) :
  add_lines ls2 (add_lines ls1 w) = add_lines (ls1 ++ ls2) w.
Proof. unfold add_lines. simpl. by rewrite app_assoc. Qed.

Lemma print_call (line : pystr) (w : world) : print line w = (Ok tt, add_lines [line] w).
Proof. reflexivity. Qed.

Lemma decode_or_empty (b : pybytes) (w : world) :
  try_except (decode_utf8 (PBytes b)) (ret (PStr [])) w = (Ok (PStr (entry_text b)), w).
Proof.
  unfold try_except, decode_utf8, lift, ret, entry_text.
  by destruct (Utf8.decode b).
Qed.

Lemma replay_lines (f_name : pystr) (ios : list (pybytes * pybytes)) (w : world) :
  for_each ios (fun io =>
    i <- try_except (decode_utf8 (PBytes io.1)) (ret (PStr [])) ;;
    o <- try_except (decode_utf8 (PBytes io.2)) (ret (PStr [])) ;;
    print (f_name ++ str_lit "(" ++ str_lit "*" ++ py_str i ++ str_lit ") -> " ++ py_str o)) w
  = (Ok tt, add_lines (map (report_line f_name) ios) w).
Proof.
  revert w. induction ios as [|io ios IH]; intros w.
  { simpl. by rewrite add_lines_nil. }
  cbn [for_each map]. rewrite bind_unfold, bind_unfold, decode_or_empty.
  rewrite bind_unfold, decode_or_empty, print_call, IH, add_lines_app. done.
Qed.

Lemma count_or_zero (payload : option pybytes) (w : world) :
  try_except
    (decode_utf8 (match payload with Some b => PBytes b | None => PNone end))
    (ret (PInt 0)) w
  = (Ok (match payload with
         | Some b => match Utf8.decode b with Some s => PStr s | None => PInt 0 end
         | None => PInt 0
         end), w).
Proof.
  unfold try_except, decode_utf8, lift, ret.
  destruct payload as [b|]; [|done]. by destruct (Utf8.decode b).
Qed.

(** What [replay] prints when the server answers its three reads. *)
Lemma replay_call (fn : pymethod) (w : world) (k kin kout : pybytes)
    (payload : option pybytes) (ins outs : list pybytes) :
  Utf8.encode (qualname fn) = Some k →
  Utf8.encode (qualname fn ++ str_lit ":inputs") = Some kin →
  Utf8.encode (qualname fn ++ str_lit ":outputs") = Some kout →
  Redis.GET k (db w) = Redis.Reply payload →
  Redis.LRANGE kin 0 (-1) (db w) = Redis.Reply ins →
  Redis.LRANGE kout 0 (-1) (db w) = Redis.Reply outs →
  replay fn w
  = (Ok tt, add_lines (report_header (qualname fn) payload
                       :: map (report_line (qualname fn)) (combine ins outs)) w).
Proof.
  intros Hk Hkin Hkout Hget Hins Houts. unfold replay.
  rewrite bind_unfold, redis_get_call. cbn [encode_arg]. rewrite Hk. cbn [or_raise].
  rewrite Hget.
  assert (∀ w1, db w1 = db w →
            (ins <- redis_lrange (PStr (qualname fn ++ str_lit ":inputs")) 0 (-1) ;;
             outs <- redis_lrange (PStr (qualname fn ++ str_lit ":outputs")) 0 (-1) ;;
             for_each (combine ins outs) (fun io =>
               i <- try_except (decode_utf8 (PBytes io.1)) (ret (PStr [])) ;;
               o <- try_except (decode_utf8 (PBytes io.2)) (ret (PStr [])) ;;
               print (qualname fn ++ str_lit "(" ++ str_lit "*" ++ py_str i
                      ++ str_lit ") -> " ++ py_str o))) w1
            = (Ok tt, add_lines (map (report_line (qualname fn)) (combine ins outs)) w1))
    as Hrest.
  { intros w1 Hdb.
    rewrite bind_unfold, (redis_lrange_call _ _ _ _ _ Hkin), Hdb, Hins. cbn [on_reply].
    rewrite bind_unfold, (redis_lrange_call _ _ _ _ _ Hkout), Hdb, Houts. cbn [on_reply].
    apply replay_lines. }
  unfold report_header, count_text.
  destruct payload as [b|]; [destruct (Utf8.decode b) as [s|] eqn:Hb|];
    rewrite bind_unfold;
    [rewrite (count_or_zero (Some b)), Hb|rewrite (count_or_zero (Some b)), Hb
    |rewrite (count_or_zero None)];
    rewrite bind_unfold, print_call, Hrest by done;
    by rewrite add_lines_app.
Qed.

(** C4.  [replay] reads the counter and the two lists under the method's
    qualified name and prints a header with the name and the count, then one
    line, the name, the input as a starred argument and the output after
    an arrow, per pair of entries at the same position,
    as many as the shorter list has, without an error when the lengths
    differ.  For the method [op] on an empty database, called with ["a"]
    (returning ["k1"]) and ["b"] (returning ["k2"]) under both wrappers, it
    prints the header [op was called 2 times:] and the two lines of the
    calls. *)
Theorem replay_pairs_positionally :
  (∀ (fn : pymethod) (w : world) (k kin kout : pybytes)
     (payload : option pybytes) (ins outs : list pybytes),
      Utf8.encode (qualname fn) = Some k →
      Utf8.encode (qualname fn ++ str_lit ":inputs") = Some kin →
      Utf8.encode (qualname fn ++ str_lit ":outputs") = Some kout →
      Redis.GET k (db w) = Redis.Reply payload →
      Redis.LRANGE kin 0 (-1) (db w) = Redis.Reply ins →
      Redis.LRANGE kout 0 (-1) (db w) = Redis.Reply outs →
      ∃ lines,
        replay fn w
        = (Ok tt, add_lines ((qualname fn ++ str_lit " was called "
                              ++ count_text payload ++ str_lit " times:") :: lines) w)
        ∧ length lines = Nat.min (length ins) (length outs)
        ∧ ∀ (j : nat) (i o : pybytes),
            ins !! j = Some i → outs !! j = Some o →
            lines !! j = Some (qualname fn ++ str_lit "(" ++ str_lit "*" ++ entry_text i
                               ++ str_lit ") -> " ++ entry_text o))
  ∧ (let op := count_calls (call_history op_sample) in
     let r := run_calls op [([PStr (str_lit "a")], []); ([PStr (str_lit "b")], [])]
                empty_world in
     r.1 = [Ok (PStr (str_lit "k1")); Ok (PStr (str_lit "k2"))]
     ∧ replay op r.2
       = (Ok tt, add_lines [str_lit "op was called 2 times:";
                            str_lit "op(" ++ str_lit "*('a',)) -> k1";
                            str_lit "op(" ++ str_lit "*('b',)) -> k2"] r.2)).
Proof.
  split.
  - intros fn w k kin kout payload ins outs Hk Hkin Hkout Hget Hins Houts.
    exists (map (report_line (qualname fn)) (combine ins outs)).
    split; [by eapply replay_call|]. split.
    + by rewrite length_map, length_combine.
    + intros j i o Hi Ho. rewrite list_lookup_fmap.
      assert (combine ins outs !! j = Some (i, o)) as ->; [|done].
      clear -Hi Ho. revert j outs Hi Ho.
      induction ins as [|i0 ins IH]; intros [|j] [|o0 outs] Hi Ho; simplify_eq/=;
        [done|by apply IH].
  - split; vm_compute; reflexivity.
Qed.

(** C5, as the code has it.  [replay] shows [0] for a counter key that is
    absent or whose payload is not valid UTF-8, and raises nothing; a
    payload that is valid UTF-8 is shown as it is, number or not.  An entry
    of the history that is not valid UTF-8 is shown as the empty text. *)
Theorem replay_counter_default
    (fn : pymethod) (w : world) (k kin kout : pybytes)
    (payload : option pybytes) (ins outs : list pybytes) :
  Utf8.encode (qualname fn) = Some k →
  Utf8.encode (qualname fn ++ str_lit ":inputs") = Some kin →
  Utf8.encode (qualname fn ++ str_lit ":outputs") = Some kout →
  Redis.GET k (db w) = Redis.Reply payload →
  Redis.LRANGE kin 0 (-1) (db w) = Redis.Reply ins →
  Redis.LRANGE kout 0 (-1) (db w) = Redis.Reply outs →
  (replay fn w).1 = Ok tt
  ∧ (∃ shown lines,
        stdout (replay fn w).2
        = stdout w ++ (qualname fn ++ str_lit " was called " ++ shown
                       ++ str_lit " times:") :: lines
        ∧ match payload with
          | None => shown = str_lit "0"
          | Some b =>
              match Utf8.decode b with
              | None => shown = str_lit "0"
              | Some s => shown = s
              end
          end
        ∧ Forall2 (λ io line,
             line = qualname fn ++ str_lit "(" ++ str_lit "*"
                    ++ (if Utf8.decode io.1 is Some s then s else [])
                    ++ str_lit ") -> "
                    ++ (if Utf8.decode io.2 is Some s then s else []))
            (combine ins outs) lines).
Proof.
  intros Hk Hkin Hkout Hget Hins Houts.
  rewrite (replay_call fn w k kin kout payload ins outs) by done.
  split; [done|].
  exists (count_text payload), (map (report_line (qualname fn)) (combine ins outs)).
  split; [done|]. split.
  - unfold count_text. destruct payload as [b|]; [|done]. by destruct (Utf8.decode b).
  - apply Forall2_fmap_r, Forall_Forall2_diag, Forall_forall.
    intros [i o] _. unfold report_line, entry_text. cbn.
    by destruct (Utf8.decode i), (Utf8.decode o).
Qed.

(** ** Reading *)

Lemma redis_get_reply (key : pyval) (w : world) (k : pybytes) (payload : option pybytes) :
  encode_arg key = Ok k → Redis.GET k (db w) = Redis.Reply payload →
  redis_get key w
  = (Ok (match payload with Some b => PBytes b | None => PNone end), w).
Proof.
  intros Hk Hget. rewrite redis_get_call, Hk, Hget. by destruct payload.
Qed.

(** C8.  [get] returns what the server holds under the key as it is,
    [None] for an absent key, and with a decode function the result of
    applying it to that very value, [None] included. *)
Theorem get_applies_decoder
    (key : pyval) (fn : pyval → M pyval) (w : world) (k : pybytes)
    (payload : option pybytes) :
  encode_arg key = Ok k →
  Redis.GET k (db w) = Redis.Reply payload →
  let raw := match payload with Some b => PBytes b | None => PNone end in
  Cache.get key None w = (Ok raw, w) ∧ Cache.get key (Some fn) w = fn raw w.
Proof.
  intros Hk Hget raw. unfold Cache.get.
  by rewrite !bind_unfold, (redis_get_reply key w k payload).
Qed.

(** C7.  [get_str] returns the UTF-8 decoding of the payload and raises
    when there is none: [AttributeError] for an absent key,
    [UnicodeDecodeError] for bytes that are not valid UTF-8.  On a key holding
    [hello] it returns [hello]; on a missing key it raises. *)
Theorem get_str_strict :
  (∀ (key : pyval) (w : world) (k : pybytes) (payload : option pybytes),
      encode_arg key = Ok k →
      Redis.GET k (db w) = Redis.Reply payload →
      Cache.get_str key w
      = (match payload with
         | Some b =>
             match Utf8.decode b with
             | Some s => Ok (PStr s)
             | None => Raise UnicodeDecodeError
             end
         | None => Raise AttributeError
         end, w))
  ∧ (let w := set_db {["k" := Redis.RString "hello"]} empty_world in
     Cache.get_str (PStr (str_lit "k")) w = (Ok (PStr (str_lit "hello")), w)
     ∧ Cache.get_str (PStr (str_lit "missing")) w = (Raise AttributeError, w)).
Proof.
  split; [|done].
  intros key w k payload Hk Hget. unfold Cache.get_str.
  rewrite bind_unfold, (redis_get_reply key w k payload) by done.
  unfold decode_utf8, lift. destruct payload as [b|]; [|done].
  by destruct (Utf8.decode b).
Qed.

(** C6.  [get_int] returns the integer that [int] reads in the UTF-8
    decoding of the payload, and 0, without raising, when the key is absent,
    the payload is not valid UTF-8 or its text is not an integer.  On a key
    holding [42] it returns 42, on a missing key 0, on a key holding [abc]
    0. *)
Theorem get_int_lenient :
  (∀ (key : pyval) (w : world) (k : pybytes) (payload : option pybytes),
      encode_arg key = Ok k →
      Redis.GET k (db w) = Redis.Reply payload →
      Cache.get_int key w
      = (Ok (PInt (match payload with
                   | Some b =>
                       match Utf8.decode b with
                       | Some s => match py_int s with Some n => n | None => 0 end
                       | None => 0
                       end
                   | None => 0
                   end)), w))
  ∧ (let w := set_db {["k" := Redis.RString "42"]} empty_world in
     Cache.get_int (PStr (str_lit "k")) w = (Ok (PInt 42), w)
     ∧ Cache.get_int (PStr (str_lit "missing")) w = (Ok (PInt 0), w))
  ∧ (let w := set_db {["k" := Redis.RString "abc"]} empty_world in
     Cache.get_int (PStr (str_lit "k")) w = (Ok (PInt 0), w)).
Proof.
  split; [|done].
  intros key w k payload Hk Hget.
  rewrite Cache_get_int_call, (redis_get_reply key w k payload) by done.
  destruct payload as [b|]; [|done].
  destruct (Utf8.decode b) as [s|]; [|done]. by destruct (py_int s).
Qed.

(** C9.  [Cache.__init__] flushes the database: whatever a key held before,
    right after construction [get] returns [None] for it. *)
Theorem init_clears_store (w : world) (key : pyval) (k : pybytes) :
  encode_arg key = Ok k →
  (Cache.__init__ w).1 = Ok tt
  ∧ db (Cache.__init__ w).2 = ∅
  ∧ Cache.get key None (Cache.__init__ w).2 = (Ok PNone, (Cache.__init__ w).2).
Proof.
  intros Hk. split; [done|]. split; [done|].
  unfold Cache.get. rewrite bind_unfold.
  by rewrite (redis_get_reply key _ k None Hk).
Qed.

(** ** What can be encoded *)











(** ** Storing and reading back *)



Lemma uuid_key_arg (u : Z) : encode_arg (PStr (uuid_str u)) = Ok (uuid_key u).
Proof. cbn [encode_arg]. by rewrite uuid_key_encode. Qed.


(** ** Reading leaves the store alone *)

Lemma redis_get_world (key : pyval) (w : world) : (redis_get key w).2 = w.
Proof.
  rewrite redis_get_call. destruct (encode_arg key) as [k|e]; [|done].
  by destruct (Redis.GET k (db w)) as [[b|]| |].
Qed.

Lemma decode_utf8_world (v : pyval) (w : world) : (decode_utf8 v w).2 = w.
Proof. reflexivity. Qed.

Lemma for_each_prints (A : Type) (l : list A) (body : A → M unit) (w : world) :
  (∀ x w0, ∃ ls, (body x w0).2 = add_lines ls w0) →
  ∃ ls, (for_each l body w).2 = add_lines ls w.
Proof.
  intros Hbody. revert w. induction l as [|x l IH]; intros w.
  { exists []. simpl. by rewrite add_lines_nil. }
  cbn [for_each]. rewrite bind_unfold.
  destruct (Hbody x w) as [ls1 H1].
  destruct (body x w) as [[[]|e] w1]; simpl in H1; subst w1.
  - destruct (IH (add_lines ls1 w)) as [ls2 H2]. exists (ls1 ++ ls2).
    by rewrite H2, add_lines_app.
  - by exists ls1.
Qed.

Lemma replay_prints (fn : pymethod) (w : world) :
  ∃ ls, (replay fn w).2 = add_lines ls w.
Proof.
  unfold replay. rewrite bind_unfold.
  pose proof (redis_get_world (PStr (qualname fn)) w) as Hg.
  destruct (redis_get (PStr (qualname fn)) w) as [[v|e] w0]; simpl in Hg; subst w0;
    [|exists []; by rewrite add_lines_nil].
  rewrite bind_unfold.
  assert (∃ c, try_except (decode_utf8 v) (ret (PInt 0)) w = (Ok c, w)) as [c ->].
  { unfold try_except, decode_utf8, lift, ret.
    destruct v; try by eexists. destruct (Utf8.decode b); by eexists. }
  rewrite bind_unfold, print_call. set (w1 := add_lines _ w).
  rewrite bind_unfold. unfold redis_lrange at 1, redis_encode. rewrite bind_unfold.
  unfold lift at 1.
  destruct (encode_arg _) as [kin|e]; [|by eexists].
  destruct (on_reply _) as [ins|e]; [|by eexists].
  rewrite bind_unfold. unfold redis_lrange at 1, redis_encode. rewrite bind_unfold.
  unfold lift at 1.
  destruct (encode_arg _) as [kout|e]; [|by eexists].
  destruct (on_reply _) as [outs|e]; [|by eexists].
  destruct (for_each_prints _ (combine ins outs)
              (fun io =>
                 i <- try_except (decode_utf8 (PBytes io.1)) (ret (PStr [])) ;;
                 o <- try_except (decode_utf8 (PBytes io.2)) (ret (PStr [])) ;;
                 print (qualname fn ++ str_lit "(" ++ str_lit "*" ++ py_str i
                        ++ str_lit ") -> " ++ py_str o)) w1) as [ls Hls].
  { intros io w0. rewrite bind_unfold, decode_or_empty, bind_unfold, decode_or_empty.
    rewrite print_call. by eexists. }
  rewrite Hls. unfold w1. rewrite add_lines_app. by eexists.
Qed.

(** X1.  Reading never writes.  [get] without a decode function, [get_str]
    and [get_int] leave the database, the entropy and the printed lines as
    they were, whether they return or raise; [replay] leaves the database and
    the entropy as they were and only adds lines after those already
    printed, also when it raises half-way. *)
Theorem reads_never_write (key : pyval) (fn : pymethod) (w : world) :
  (Cache.get key None w).2 = w
  ∧ (Cache.get_str key w).2 = w
  ∧ (Cache.get_int key w).2 = w
  ∧ db (replay fn w).2 = db w
  ∧ entropy (replay fn w).2 = entropy w
  ∧ ∃ ls, stdout (replay fn w).2 = stdout w ++ ls.
Proof.
  pose proof (redis_get_world key w) as Hg.
  split_and!.
  - unfold Cache.get. rewrite bind_unfold.
    by destruct (redis_get key w) as [[v|e] w0].
  - unfold Cache.get_str. rewrite bind_unfold.
    by destruct (redis_get key w) as [[v|e] w0].
  - rewrite Cache_get_int_call.
    by destruct (redis_get key w) as [[[]|e] w0].
  - destruct (replay_prints fn w) as [ls ->]. done.
  - destruct (replay_prints fn w) as [ls ->]. done.
  - destruct (replay_prints fn w) as [ls ->]. by exists ls.
Qed.

(** X2.  [get_int] reads the key outside its [try]: it raises exactly when
    the read does, with the exception of the read (the key cannot be sent, or
    it holds a list), and the state is untouched.  In every other case it
    returns an integer: what [int] makes of the text [get_str] returns, and 0
    when [get_str] raises or that text is no integer. *)
Theorem get_int_failure_modes (key : pyval) (w : world) :
  match encode_arg key with
  | Raise e => Cache.get_int key w = (Raise e, w)
  | Ok k =>
      match db w !! k with
      | Some (Redis.RList _) => Cache.get_int key w = (Raise ResponseError, w)
      | _ =>
          Cache.get_int key w
          = (Ok (PInt (match (Cache.get_str key w).1 with
                       | Ok (PStr s) => default 0 (py_int s)
                       | _ => 0
                       end)), w)
      end
  end.
Proof.
  rewrite Cache_get_int_call. unfold Cache.get_str. rewrite bind_unfold.
  rewrite redis_get_call. destruct (encode_arg key) as [k|e]; [|done].
  unfold Redis.GET. destruct (db w !! k) as [[b|l]|]; [|done|done].
  unfold decode_utf8, lift. cbn [fst]. by destruct (Utf8.decode b).
Qed.

(** ** Keys that hold the wrong kind of value *)

Lemma set_db_same (w : world) : set_db (db w) w = w.
Proof. by destruct w. Qed.

(** X3.  [replay] reads the counter before it prints and the two lists after
    the header, all outside any [try].  With a list under the counter key it
    raises [ResponseError] and prints nothing; with a string under the inputs
    key, or under the outputs key, it raises [ResponseError] after the header,
    the only line printed. *)
Theorem replay_wrong_type
    (fn : pymethod) (w : world) (k kin kout : pybytes) :
  Utf8.encode (qualname fn) = Some k →
  Utf8.encode (qualname fn ++ str_lit ":inputs") = Some kin →
  Utf8.encode (qualname fn ++ str_lit ":outputs") = Some kout →
  (∀ l, db w !! k = Some (Redis.RList l) → replay fn w = (Raise ResponseError, w))
  ∧ (∀ payload s,
        Redis.GET k (db w) = Redis.Reply payload →
        db w !! kin = Some (Redis.RString s) →
        replay fn w
        = (Raise ResponseError,
           add_lines [qualname fn ++ str_lit " was called " ++ count_text payload
                      ++ str_lit " times:"] w))
  ∧ (∀ payload ins s,
        Redis.GET k (db w) = Redis.Reply payload →
        Redis.LRANGE kin 0 (-1) (db w) = Redis.Reply ins →
        db w !! kout = Some (Redis.RString s) →
        replay fn w
        = (Raise ResponseError,
           add_lines [qualname fn ++ str_lit " was called " ++ count_text payload
                      ++ str_lit " times:"] w)).
Proof.
  intros Hk Hkin Hkout.
  assert (∀ payload,
            Redis.GET k (db w) = Redis.Reply payload →
            ∀ rest : M unit,
              (n_calls <- redis_get (PStr (qualname fn)) ;;
               n_calls <- try_except (decode_utf8 n_calls) (ret (PInt 0)) ;;
               print (qualname fn ++ str_lit " was called " ++ py_str n_calls
                      ++ str_lit " times:") ;;;
               rest) w
              = rest (add_lines [qualname fn ++ str_lit " was called "
                                 ++ count_text payload ++ str_lit " times:"] w))
    as Hhead.
  { intros payload Hget rest.
    rewrite bind_unfold, redis_get_call. cbn [encode_arg]. rewrite Hk. cbn [or_raise].
    rewrite Hget. unfold count_text.
    destruct payload as [b|]; [destruct (Utf8.decode b) as [s|] eqn:Hb|];
      rewrite bind_unfold;
      [rewrite (count_or_zero (Some b)), Hb|rewrite (count_or_zero (Some b)), Hb
      |rewrite (count_or_zero None)];
      by rewrite bind_unfold, print_call. }
  split_and!.
  - intros l Hl. unfold replay.
    rewrite bind_unfold, redis_get_call. cbn [encode_arg]. rewrite Hk. cbn [or_raise].
    unfold Redis.GET. by rewrite Hl.
  - intros payload s Hget Hs. unfold replay. rewrite (Hhead payload Hget).
    rewrite bind_unfold, (redis_lrange_call _ _ _ _ _ Hkin). cbn [db add_lines].
    unfold Redis.LRANGE. by rewrite Hs.
  - intros payload ins s Hget Hins Hs. unfold replay. rewrite (Hhead payload Hget).
    rewrite bind_unfold, (redis_lrange_call _ _ _ _ _ Hkin). cbn [db add_lines].
    rewrite Hins. cbn [on_reply].
    rewrite bind_unfold, (redis_lrange_call _ _ _ _ _ Hkout). cbn [db add_lines].
    unfold Redis.LRANGE. by rewrite Hs.
Qed.

(** X7.  [count_calls] increments before anything else: when the increment
    is refused, because the counter key holds a list or a text that is no
    integer, the wrapper raises [ResponseError], the method is not called and
    the state is as before. *)
Theorem failed_increment_skips_method
    (method : pymethod) (args : list pyval) (kwargs : list (string * pyval))
    (w : world) (k : pybytes) :
  Utf8.encode (qualname method) = Some k →
  (∃ l, db w !! k = Some (Redis.RList l))
  ∨ (∃ s, db w !! k = Some (Redis.RString s) ∧ Redis.string2ll s = None) →
  call (count_calls method) args kwargs w = (Raise ResponseError, w).
Proof.
  intros Hk Hbad. rewrite count_calls_call, (redis_incr_call _ _ _ Hk).
  unfold Redis.INCR.
  destruct Hbad as [[l ->]|(s & -> & ->)]; cbn [fst snd on_reply fmap outcome_fmap];
    by rewrite set_db_same.
Qed.

(** ** What a call of [store] leaves alone *)

Lemma INCR_other (key k : pybytes) (d : gmap string Redis.rvalue) :
  k ≠ key → (Redis.INCR key d).2 !! k = d !! k.
Proof.
  intros Hne. unfold Redis.INCR.
  destruct (d !! key) as [[s|l]|]; [destruct (Redis.string2ll s)| |]; cbn [snd];
    by rewrite ?lookup_insert_ne.
Qed.

Lemma RPUSH_other (key value k : pybytes) (d : gmap string Redis.rvalue) :
  k ≠ key → (Redis.RPUSH key value d).2 !! k = d !! k.
Proof.
  intros Hne. unfold Redis.RPUSH.
  destruct (d !! key) as [[s|l]|]; cbn [snd]; by rewrite ?lookup_insert_ne.
Qed.

Lemma redis_rpush_other (ks vs : pystr) (key k : pybytes) (w : world) :
  Utf8.encode ks = Some key → k ≠ key →
  db (redis_rpush (PStr ks) (PStr vs) w).2 !! k = db w !! k
  ∧ entropy (redis_rpush (PStr ks) (PStr vs) w).2 = entropy w.
Proof.
  intros Hk Hne. rewrite (redis_rpush_call _ _ _ _ Hk).
  destruct (Utf8.encode vs) as [v|]; [|done]. cbn [snd db entropy set_db].
  by rewrite RPUSH_other.
Qed.

Lemma store_body_other (args : list pyval) (kwargs : list (string * pyval))
    (k : pybytes) (w : world) :
  let w1 := (call Cache.store_body args kwargs w).2 in
  (entropy w1 = entropy w ∧ db w1 !! k = db w !! k)
  ∨ (entropy w1 = S (entropy w)
     ∧ (k ≠ uuid_key (uuid_int (os_urandom16 (entropy w))) → db w1 !! k = db w !! k)).
Proof.
  rewrite store_body_call.
  destruct (bind_data args kwargs) as [data|e]; [|by left]. cbv zeta.
  destruct (encode_arg data) as [v|e]; cbn [snd db entropy set_db]; right;
    (split; [done|]); [|done].
  intros Hne. by rewrite lookup_insert_ne.
Qed.

(** One call, from any state: either no key is generated and nothing
    changes outside the instrumentation keys, or one key is generated and
    nothing changes outside the instrumentation keys and that one. *)
Lemma Cache_store_other (args : list pyval) (kwargs : list (string * pyval))
    (k : pybytes) (w : world) :
  k ≠ "Cache.store" → k ≠ "Cache.store:inputs" → k ≠ "Cache.store:outputs" →
  let w' := (call Cache.store args kwargs w).2 in
  (entropy w' = entropy w ∧ db w' !! k = db w !! k)
  ∨ (entropy w' = S (entropy w)
     ∧ (k ≠ uuid_key (uuid_int (os_urandom16 (entropy w))) → db w' !! k = db w !! k)).
Proof.
  intros Hc Hi Ho.
  unfold Cache.store. rewrite count_calls_call.
  cbn [qualname call_history Cache.store_body].
  rewrite (redis_incr_call _ _ _ counter_key_encode).
  pose proof (INCR_other "Cache.store" k (db w) Hc) as HI.
  destruct (Redis.INCR "Cache.store" (db w)) as [r d1]. cbn [fst snd] in *.
  destruct (on_reply r) as [n|e]; cbn [fmap outcome_fmap]; [|by left].
  rewrite call_history_call.
  pose proof (store_body_other args kwargs k (set_db d1 w)) as Hb.
  cbn [db entropy set_db] in Hb. cbv zeta in Hb. rewrite HI in Hb.
  cbn [qualname Cache.store_body].
  destruct (call Cache.store_body args kwargs (set_db d1 w)) as [[out|e] w1];
    cbn [snd] in *; [|done].
  destruct (redis_rpush_other (str_lit "Cache.store" ++ str_lit ":inputs")
              (tuple_str args) _ k w1 inputs_key_encode Hi) as [Hr1 Hr2].
  destruct (redis_rpush _ _ w1) as [[?|e] w2]; cbn [snd] in *;
    [|rewrite Hr1, Hr2; exact Hb].
  destruct (redis_rpush_other (str_lit "Cache.store" ++ str_lit ":outputs")
              (py_str out) _ k w2 outputs_key_encode Ho) as [Hs1 Hs2].
  destruct (redis_rpush _ _ w2) as [[?|e] w3]; cbn [snd] in *;
    rewrite Hs1, Hs2, Hr1, Hr2; exact Hb.
Qed.

Lemma run_calls_entropy (calls : list (list pyval * list (string * pyval))) (w : world) :
  (entropy w ≤ entropy (run_calls Cache.store calls w).2)%nat.
Proof.
  revert w. induction calls as [|[args kwargs] calls IH]; intros w; [done|].
  cbn [run_calls].
  pose proof (Cache_store_other args kwargs "" w) as Hstep.
  destruct (call Cache.store args kwargs w) as [r w1]. cbn [snd] in *.
  specialize (IH w1).
  destruct (run_calls Cache.store calls w1) as [rs w2]. cbn [snd] in *.
  destruct Hstep as [[He _]|[He _]]; try done; lia.
Qed.

Lemma not_generated (k : pybytes) (w w' : world) :
  k ∉ generated_keys w w' →
  ∀ j, (entropy w ≤ j < entropy w')%nat → k ≠ uuid_key (uuid_int (os_urandom16 j)).
Proof.
  intros Hk j Hj ->. apply Hk. unfold generated_keys.
  apply list_elem_of_fmap. exists j. split; [done|].
  apply elem_of_seq. lia.
Qed.

Lemma get_depends_on_key (key : pyval) (k : pybytes) (w w' : world) :
  encode_arg key = Ok k → db w' !! k = db w !! k →
  (Cache.get key None w').1 = (Cache.get key None w).1.
Proof.
  intros Hk Hdb. unfold Cache.get. rewrite !bind_unfold, !redis_get_call, Hk.
  unfold Redis.GET. rewrite Hdb. by destruct (db w !! k) as [[b|l]|].
Qed.

(** X4.  Calls of [Cache.store] write under the counter key, the two
    history keys and the keys they generate, and nowhere else: from any
    state, after any sequence of calls, a key that is none of these holds
    what it held before, so that [get] returns for it what it returned
    before.  The keys generated are those of the draws the calls really made:
    a call that raises before it draws generates none.  So a value stored
    earlier is lost only when a later call draws the same key. *)
Theorem stores_keep_other_keys
    (calls : list (list pyval * list (string * pyval))) (w : world)
    (key : pyval) (k : pybytes) :
  encode_arg key = Ok k →
  k ≠ "Cache.store" → k ≠ "Cache.store:inputs" → k ≠ "Cache.store:outputs" →
  k ∉ generated_keys w (run_calls Cache.store calls w).2 →
  db (run_calls Cache.store calls w).2 !! k = db w !! k
  ∧ (Cache.get key None (run_calls Cache.store calls w).2).1
    = (Cache.get key None w).1.
Proof.
  intros Hk Hc Hi Ho Hfresh.
  assert (db (run_calls Cache.store calls w).2 !! k = db w !! k) as Hdb;
    [|split; [done|by apply (get_depends_on_key key k)]].
  clear Hk. pose proof (not_generated _ _ _ Hfresh) as Hdrawn.
  clear Hfresh. rename Hdrawn into Hfresh. revert w Hfresh.
  induction calls as [|[args kwargs] calls IH]; intros w Hfresh; [done|].
  cbn [run_calls] in *.
  pose proof (Cache_store_other args kwargs k w Hc Hi Ho) as Hstep.
  destruct (call Cache.store args kwargs w) as [r w1]. cbn [snd] in *.
  specialize (IH w1). pose proof (run_calls_entropy calls w1) as Hmono.
  destruct (run_calls Cache.store calls w1) as [rs w2]. cbn [snd] in *.
  destruct Hstep as [[He Hdb]|[He Hdb]].
  - rewrite IH; [done|]. intros j Hj. apply Hfresh. lia.
  - rewrite IH; [apply Hdb, Hfresh; lia|]. intros j Hj. apply Hfresh. lia.
Qed.

(** ** Calls of [store] that raise *)

(** X5.  A call that [store] refuses because of its arguments, wrong in
    number or in name ([TypeError]) or a value the client does not send
    ([DataError], [UnicodeEncodeError]), is counted and changes nothing
    else: afterwards the database is the one before with the counter
    incremented, no key written and no history entry. *)
Theorem refused_store_writes_only_counter
    (args : list pyval) (kwargs : list (string * pyval)) (w : world)
    (n : nat) (ins outs : list pybytes) (e : exn) :
  instrumented (db w) n ins outs →
  bind_data args kwargs = Raise e
  ∨ (∃ data, bind_data args kwargs = Ok data ∧ encode_arg data = Raise e) →
  (call Cache.store args kwargs w).1 = Raise e
  ∧ db (call Cache.store args kwargs w).2
    = <["Cache.store" :=
         Redis.RString (of_codes (Numeral.int_digits (Z.of_nat (S n))))]> (db w)
  ∧ stdout (call Cache.store args kwargs w).2 = stdout w.
Proof.
  intros Hinv Hbad. rewrite (Cache_store_call _ _ _ _ _ _ Hinv). cbv zeta.
  destruct Hbad as [->|(data & -> & ->)]; by split_and!.
Qed.

(** X6.  The history is written after the method has run and in two
    steps, neither undone when a later one fails.  With the inputs list in
    order and a string under the outputs key, a call of [store] with a good
    argument raises [ResponseError], yet the value is in the database under
    the generated key, which the caller never learns, the counter is
    incremented and the inputs list has a new entry with no output to
    match. *)
Theorem history_failure_after_write
    (args : list pyval) (kwargs : list (string * pyval)) (w : world)
    (n : nat) (ins : list pybytes) (s v i : pybytes) (data : pyval) :
  counter_holds (db w) n →
  list_holds "Cache.store:inputs" (db w) ins →
  db w !! "Cache.store:outputs" = Some (Redis.RString s) →
  bind_data args kwargs = Ok data →
  encode_arg data = Ok v →
  Utf8.encode (tuple_str args) = Some i →
  let u := uuid_int (os_urandom16 (entropy w)) in
  (call Cache.store args kwargs w).1 = Raise ResponseError
  ∧ db (call Cache.store args kwargs w).2
    = <["Cache.store:inputs" := Redis.RList (ins ++ [i])]>
        (<[uuid_key u := Redis.RString v]>
           (<["Cache.store" :=
               Redis.RString (of_codes (Numeral.int_digits (Z.of_nat (S n))))]> (db w))).
Proof.
  intros Hc Hi Ho Hdata Hv Htuple u. unfold Cache.store.
  rewrite count_calls_call. cbn [qualname call_history Cache.store_body].
  rewrite (redis_incr_call _ _ _ counter_key_encode), (INCR_counter _ _ Hc).
  cbn [fst snd on_reply fmap outcome_fmap].
  rewrite call_history_call, store_body_call. cbn [qualname Cache.store_body].
  rewrite Hdata. cbn [entropy db stdout set_db]. cbv zeta. rewrite Hv.
  destruct (uuid_key_not_reserved (uuid_int (os_urandom16 (entropy w))))
    as (Hk1 & Hk2 & Hk3).
  fold u in Hk1, Hk2, Hk3 |- *.
  rewrite (redis_rpush_call _ _ _ _ inputs_key_encode), Htuple.
  cbn [db set_db].
  rewrite (RPUSH_list _ _ _ ins)
    by (do 2 (apply list_holds_insert_ne; [done|]); done).
  cbn [fst snd on_reply fmap outcome_fmap].
  rewrite (redis_rpush_call _ _ _ _ outputs_key_encode).
  cbn [py_str]. rewrite uuid_key_encode. cbn [db set_db].
  unfold Redis.RPUSH.
  rewrite !lookup_insert_ne, Ho by done.
  cbn [fst snd on_reply fmap outcome_fmap]. done.
Qed.

(** ** The wrappers around any method *)

Lemma string2ll_int_digits (z : Z) :
  Redis.string2ll (of_codes (Numeral.int_digits z)) = Some z.
Proof.
  destruct (Z.lt_trichotomy z 0) as [Hz|[->|Hz]]; [|done|].
  - unfold Redis.string2ll, Numeral.int_digits. decide_tests.
    pose proof (nat_digits_digits (- z) ltac:(lia)) as Hall.
    pose proof (nat_digits_value (- z) ltac:(lia)) as Hval.
    rewrite codes_of_codes
      by (constructor; [lia|]; eapply Forall_impl; [done|]; simpl; lia).
    destruct (nat_digits_cons (- z)) as (d & ds & Hd & Hr & Hd1); [lia|].
    rewrite Hd in *. specialize (Hd1 ltac:(lia)).
    decide_tests. cbn [andb]. decide_tests. cbn [andb].
    rewrite forallb_is_digit by by inversion Hall.
    rewrite Hval. f_equal. lia.
  - rewrite int_digits_nonneg by lia. apply string2ll_nat_digits. lia.
Qed.

Lemma INCR_counter_at (k : pybytes) (d : gmap string Redis.rvalue) (n : Z) :
  counter_at k d n →
  Redis.INCR k d
  = (Redis.Reply (n + 1),
     <[k := Redis.RString (of_codes (Numeral.int_digits (n + 1)))]> d).
Proof.
  unfold Redis.INCR. intros [->|[-> ->]]; [|done].
  by rewrite string2ll_int_digits.
Qed.

(** X8.  [count_calls] counts the calls of any method, from what the
    counter holds: when the key named by the method's qualified name counts
    [n], the method itself leaves that key alone, and [n] and [n] plus the
    number of calls are within the signed 64-bit integers, the range of the
    server's counters, then after any sequence of calls of the wrapped
    method, returning or raising, the key counts [n] plus their number. *)
Theorem count_calls_counts_from
    (method : pymethod) (k : pybytes) (n : Z)
    (calls : list (list pyval * list (string * pyval))) (w : world) :
  Utf8.encode (qualname method) = Some k →
  (∀ args kwargs w0, db (call method args kwargs w0).2 !! k = db w0 !! k) →
  counter_at k (db w) n →
  - 2 ^ 63 <= n →
  n + Z.of_nat (length calls) <= 2 ^ 63 - 1 →
  counter_at k (db (run_calls (count_calls method) calls w).2)
    (n + Z.of_nat (length calls)).
Proof.
  intros Hk Hframe. revert w n.
  induction calls as [|[args kwargs] calls IH]; intros w n Hn Hlo Hhi.
  { simpl. by rewrite Z.add_0_r. }
  cbn [run_calls]. rewrite count_calls_call, (redis_incr_call _ _ _ Hk).
  rewrite (INCR_counter_at _ _ _ Hn). cbn [fst snd on_reply fmap outcome_fmap].
  pose proof (Hframe args kwargs
                (set_db (<[k := Redis.RString
                                  (of_codes (Numeral.int_digits (n + 1)))]> (db w)) w))
    as Hm.
  destruct (call method args kwargs _) as [r w1]. cbn [snd db set_db] in Hm.
  rewrite lookup_insert_eq in Hm.
  specialize (IH w1 (n + 1) (or_introl Hm) ltac:(lia)).
  cbn [length] in Hhi. specialize (IH ltac:(lia)).
  destruct (run_calls (count_calls method) calls w1) as [rs w2].
  cbn [snd length] in *.
  by replace (n + Z.of_nat (S (length calls)))
    with (n + 1 + Z.of_nat (length calls)) by lia.
Qed.

Lemma encode_codes_app (s t : pystr) :
  Utf8.encode_codes (s ++ t)
  = match Utf8.encode_codes s, Utf8.encode_codes t with
    | Some a, Some b => Some (a ++ b)
    | _, _ => None
    end.
Proof.
  induction s as [|c s IH]; simpl.
  { by destruct (Utf8.encode_codes t). }
  rewrite IH. destruct (Utf8.encode_cp c), (Utf8.encode_codes s), (Utf8.encode_codes t);
    try done. by rewrite app_assoc.
Qed.

(** The two history keys of a method are different keys. *)
Lemma history_keys_distinct (name : pystr) (kin kout : pybytes) :
  Utf8.encode (name ++ str_lit ":inputs") = Some kin →
  Utf8.encode (name ++ str_lit ":outputs") = Some kout →
  kin ≠ kout.
Proof.
  unfold Utf8.encode. rewrite !encode_codes_app.
  destruct (Utf8.encode_codes name) as [a|]; [|done].
  intros [= <-] [= <-] Heq.
  apply (f_equal String.length) in Heq.
  rewrite !of_codes_length, !length_app in Heq. simpl in Heq. lia.
Qed.

(** X9.  [call_history] around any method: when the call returns and the
    two history keys hold lists (or nothing), the wrapper appends the UTF-8 of
    [str(args)] at the end of the inputs list, then the UTF-8 of
    [str(result)] at the end of the outputs list, and returns the method's
    result, leaving every other key as the method left it.  A text that
    UTF-8 cannot encode stops it with [UnicodeEncodeError]: that of the
    arguments before anything is appended, that of the result after the
    input is appended, which then has no output to match. *)
Theorem call_history_appends_pair
    (method : pymethod) (args : list pyval) (kwargs : list (string * pyval))
    (w w1 : world) (out : pyval) (kin kout : pybytes) (ins outs : list pybytes) :
  Utf8.encode (qualname method ++ str_lit ":inputs") = Some kin →
  Utf8.encode (qualname method ++ str_lit ":outputs") = Some kout →
  call method args kwargs w = (Ok out, w1) →
  list_holds kin (db w1) ins →
  list_holds kout (db w1) outs →
  call (call_history method) args kwargs w
  = match Utf8.encode (tuple_str args) with
    | None => (Raise UnicodeEncodeError, w1)
    | Some i =>
        let d := <[kin := Redis.RList (ins ++ [i])]> (db w1) in
        match Utf8.encode (py_str out) with
        | None => (Raise UnicodeEncodeError, set_db d w1)
        | Some o => (Ok out, set_db (<[kout := Redis.RList (outs ++ [o])]> d) w1)
        end
    end.
Proof.
  intros Hkin Hkout Hcall Hins Houts.
  pose proof (history_keys_distinct _ _ _ Hkin Hkout) as Hne.
  rewrite call_history_call, Hcall.
  rewrite (redis_rpush_call _ _ _ _ Hkin).
  destruct (Utf8.encode (tuple_str args)) as [i|]; [|done].
  rewrite (RPUSH_list _ _ _ _ Hins).
  cbn [fst snd on_reply fmap outcome_fmap].
  rewrite (redis_rpush_call _ _ _ _ Hkout). cbv zeta.
  destruct (Utf8.encode (py_str out)) as [o|]; [|done]. cbn [db set_db].
  rewrite (RPUSH_list _ _ _ outs) by (by apply list_holds_insert_ne).
  reflexivity.
Qed.

(** ** Replay of what [store] recorded *)

Lemma report_lines_of_returned {A} (name : pystr) (f g : A → pystr)
    (cs : list A) (ins outs : list pybytes) :
  Forall2 (λ c i, Utf8.encode (f c) = Some i) cs ins →
  Forall2 (λ c o, Utf8.encode (g c) = Some o) cs outs →
  map (report_line name) (combine ins outs)
  = map (λ c, name ++ str_lit "(" ++ str_lit "*" ++ f c ++ str_lit ") -> " ++ g c) cs.
Proof.
  intros Hins. revert outs.
  induction Hins as [|c i cs ins Hi _ IH]; intros outs Houts.
  { by inversion Houts. }
  inversion Houts as [|? o ? outs' Ho Houts']; subst. cbn [combine map].
  rewrite (IH outs' Houts'). f_equal.
  unfold report_line, entry_text. cbn [fst snd].
  by rewrite (utf8_roundtrip _ _ Hi), (utf8_roundtrip _ _ Ho).
Qed.

(** X10.  [replay] shows what the wrappers of [store] recorded.  On a fresh
    [Cache], after any sequence of calls of [store], [replay] raises nothing
    and prints the header with the number of all the calls, then, for each
    call that returned, in order, the line made of [str(args)] and the key
    that call returned: a call that raised is in the count and has no
    line. *)
Theorem replay_after_stores
    (w : world) (calls : list (list pyval * list (string * pyval))) :
  let r := run_calls Cache.store calls (Cache.__init__ w).2 in
  replay Cache.store r.2
  = (Ok tt,
     add_lines
       ((str_lit "Cache.store" ++ str_lit " was called "
         ++ Numeral.int_digits (Z.of_nat (length calls)) ++ str_lit " times:")
        :: map (λ c, str_lit "Cache.store" ++ str_lit "(" ++ str_lit "*"
                     ++ tuple_str c.1 ++ str_lit ") -> " ++ py_str c.2)
             (returned calls r.1)) r.2).
Proof.
  intros r.
  destruct (run_calls_instrumented calls (Cache.__init__ w).2 0 [] [])
    as (ins & outs & (Hc & Hi & Ho) & Hins & Houts).
  { rewrite Cache_init_db. apply instrumented_empty. }
  fold r in Hc, Hi, Ho, Hins, Houts. cbn [app Nat.add] in Hc, Hi, Ho.
  rewrite (replay_call Cache.store r.2 "Cache.store" "Cache.store:inputs"
             "Cache.store:outputs"
             (match calls with
              | [] => None
              | _ => Some (of_codes (Numeral.int_digits (Z.of_nat (length calls))))
              end) ins outs);
    try done.
  - cbn [qualname Cache.store count_calls call_history Cache.store_body].
    rewrite (report_lines_of_returned _ (λ c, tuple_str c.1) (λ c, py_str c.2)
               _ _ _ Hins Houts).
    do 3 f_equal. unfold report_header, count_text. do 2 f_equal.
    destruct calls as [|c calls]; [done|].
    by rewrite utf8_decode_ascii by apply int_digits_ascii.
  - unfold Redis.GET. unfold counter_holds in Hc. rewrite Hc. by destruct calls.
  - by apply LRANGE_list_holds.
  - by apply LRANGE_list_holds.
Qed.

(** X11.  Constructing a [Cache] wipes the statistics of every method along
    with the data: right after [__init__], in whatever state the server was,
    [replay] of any method prints its header with the count 0 and no line,
    and the first call of [store] that follows makes the counter 1. *)
Theorem init_resets_instrumentation
    (fn : pymethod) (w : world) (k kin kout : pybytes)
    (args : list pyval) (kwargs : list (string * pyval)) :
  Utf8.encode (qualname fn) = Some k →
  Utf8.encode (qualname fn ++ str_lit ":inputs") = Some kin →
  Utf8.encode (qualname fn ++ str_lit ":outputs") = Some kout →
  let w0 := (Cache.__init__ w).2 in
  replay fn w0
  = (Ok tt, add_lines [qualname fn ++ str_lit " was called " ++ str_lit "0"
                       ++ str_lit " times:"] w0)
  ∧ Redis.GET "Cache.store" (db (call Cache.store args kwargs w0).2)
    = Redis.Reply (Some "1").
Proof.
  intros Hk Hkin Hkout w0. split.
  - by rewrite (replay_call fn w0 k kin kout None [] []).
  - pose proof (Cache_store_step args kwargs w0 0 [] [] instrumented_empty) as Hstep.
    destruct (call Cache.store args kwargs w0) as [[out|e] w1]; cbn [snd].
    + destruct Hstep as (i & o & _ & _ & Hc & _). unfold Redis.GET.
      unfold counter_holds in Hc. by rewrite Hc.
    + destruct Hstep as (Hc & _). unfold Redis.GET.
      unfold counter_holds in Hc. by rewrite Hc.
Qed.

(** ** The key [store] returns *)

(** X12.  From any state of the server: whenever [store] returns, what it
    returns is the text of the key it generated, a text [get] can send, and
    the database holds under that key the bytes the client made of the
    argument (the argument itself when it is [bytes]), so that [get]
    without a decode function returns those bytes. *)
Theorem store_writes_under_returned_key
    (args : list pyval) (kwargs : list (string * pyval)) (w w' : world) (key : pyval) :
  call Cache.store args kwargs w = (Ok key, w') →
  ∃ data v,
    bind_data args kwargs = Ok data
    ∧ encode_arg data = Ok v
    ∧ key = PStr (uuid_str (uuid_int (os_urandom16 (entropy w))))
    ∧ Cache.get key None w' = (Ok (PBytes v), w').
Proof.
  unfold Cache.store. rewrite count_calls_call.
  cbn [qualname call_history Cache.store_body].
  rewrite (redis_incr_call _ _ _ counter_key_encode).
  destruct (Redis.INCR "Cache.store" (db w)) as [r d1]. cbn [fst snd].
  destruct (on_reply r) as [n|e]; cbn [fmap outcome_fmap]; [|done].
  rewrite call_history_call, store_body_call. cbn [qualname Cache.store_body].
  destruct (bind_data args kwargs) as [data|e] eqn:Hdata; [|done].
  cbn [entropy db stdout set_db]. cbv zeta.
  destruct (encode_arg data) as [v|e] eqn:Hv; [|done].
  destruct (uuid_key_not_reserved (uuid_int (os_urandom16 (entropy w))))
    as (Hk1 & Hk2 & Hk3).
  set (u := uuid_int _) in *. set (w1 := set_db _ _).
  assert (db w1 !! uuid_key u = Some (Redis.RString v)) as Hw1
    by (unfold w1; cbn [db set_db]; apply lookup_insert_eq).
  destruct (redis_rpush_other (str_lit "Cache.store" ++ str_lit ":inputs")
              (tuple_str args) _ (uuid_key u) w1 inputs_key_encode Hk2) as [Hr1 _].
  destruct (redis_rpush _ _ w1) as [[?|e] w2]; cbn [snd] in Hr1; [|done].
  destruct (redis_rpush_other (str_lit "Cache.store" ++ str_lit ":outputs")
              (py_str (PStr (uuid_str u))) _ (uuid_key u) w2 outputs_key_encode Hk3)
    as [Hs1 _].
  destruct (redis_rpush _ _ w2) as [[?|e] w3]; cbn [snd] in Hs1; [|done].
  intros [= <- <-]. exists data, v. split_and!; try done.
  unfold Cache.get. rewrite bind_unfold.
  rewrite (redis_get_reply _ _ (uuid_key u) (Some v) (uuid_key_arg u)); [done|].
  unfold Redis.GET. by rewrite Hs1, Hr1, Hw1.
Qed.

End Properties.

(** * The program on concrete inputs *)

#[local] Existing Instance ascii_runtime.

(** A call that raises is counted: [store(None)] is refused by the client,
    after the increment. *)
Example store_counts_raising_call :
  let w := (Cache.__init__ empty_world).2 in
  let r := call Cache.store [PNone] [] w in
  r.1 = Raise DataError
  ∧ db r.2 = {["Cache.store" := Redis.RString "1"]}.
Proof. split; vm_compute; reflexivity. Qed.

(** Three calls of [store], one of them with a keyword argument, and what
    the server holds afterwards. *)
Example store_three_calls :
  let calls := [([PStr (str_lit "a")], []);
                ([], [("data", PInt (-42))]);
                ([PBool true], [])] in
  let r := run_calls Cache.store calls (Cache.__init__ empty_world).2 in
  r.1 = [Ok (PStr (str_lit "12345678-9abc-4ef0-9234-56789abcdef0"));
         Ok (PStr (str_lit "12345678-9abc-4ef0-9234-56789abcdef1"));
         Raise DataError]
  ∧ db r.2 = {[ "Cache.store" := Redis.RString "3";
                "Cache.store:inputs" := Redis.RList ["('a',)"; "()"];
                "Cache.store:outputs" :=
                  Redis.RList ["12345678-9abc-4ef0-9234-56789abcdef0";
                               "12345678-9abc-4ef0-9234-56789abcdef1"];
                "12345678-9abc-4ef0-9234-56789abcdef0" := Redis.RString "a";
                "12345678-9abc-4ef0-9234-56789abcdef1" := Redis.RString "-42" ]}.
Proof. split; vm_compute; reflexivity. Qed.

Example tuple_str_mixed :
  tuple_str [PStr (str_lit "it's"); PBytes "q"; PInt 0; PNone]
  = [40; 34] ++ str_lit "it's" ++ [34] ++ str_lit ", b'q', 0, None)".
Proof. reflexivity. Qed.

Example py_int_forms :
  py_int (str_lit " +1_000 ") = Some 1000
  ∧ py_int (str_lit "-007") = Some (-7)
  ∧ py_int (str_lit "1__0") = None
  ∧ py_int (str_lit "1.5") = None
  ∧ py_int (str_lit "") = None.
Proof. by split_and!. Qed.

Example lrange_slices :
  Redis.slice [1; 2; 3; 4] 1 2 = [2; 3]
  ∧ Redis.slice [1; 2; 3; 4] (-2) 10 = [3; 4]
  ∧ Redis.slice [1; 2; 3; 4] 3 1 = [].
Proof. by split_and!. Qed.

(** [replay] after two calls of [store] on a fresh [Cache]. *)
Example replay_after_two_stores :
  let calls := [([PStr (str_lit "a")], []); ([PInt 7], [])] in
  let w := (run_calls Cache.store calls (Cache.__init__ empty_world).2).2 in
  stdout (replay Cache.store w).2
  = [str_lit "Cache.store was called 2 times:";
     str_lit "Cache.store(" ++ str_lit "*('a',)) -> 12345678-9abc-4ef0-9234-56789abcdef0";
     str_lit "Cache.store(" ++ str_lit "*(7,)) -> 12345678-9abc-4ef0-9234-56789abcdef1"].
Proof. vm_compute. reflexivity. Qed.

(** With a list one entry longer than the other, [replay] prints the pairs
    there are and raises nothing. *)
Example replay_uneven_lists :
  let w := set_db {[ "op:inputs" := Redis.RList ["('a',)"; "('b',)"];
                     "op:outputs" := Redis.RList ["k1"] ]} empty_world in
  replay op_sample w
  = (Ok tt, add_lines [str_lit "op was called 0 times:";
                       str_lit "op(" ++ str_lit "*('a',)) -> k1"] w).
Proof. vm_compute. reflexivity. Qed.

(** ** Instances of the statements above *)

(** An instance of [replay_pairs_positionally]: the database after the two
    calls of the example. *)
Lemma replay_pairs_positionally_witness :
  let fn := count_calls (call_history op_sample) in
  let w := set_db {[ "op" := Redis.RString "2";
                     "op:inputs" := Redis.RList ["('a',)"; "('b',)"];
                     "op:outputs" := Redis.RList ["k1"; "k2"] ]} empty_world in
  (Utf8.encode (qualname fn) = Some "op"
   ∧ Utf8.encode (qualname fn ++ str_lit ":inputs") = Some "op:inputs"
   ∧ Utf8.encode (qualname fn ++ str_lit ":outputs") = Some "op:outputs"
   ∧ Redis.GET "op" (db w) = Redis.Reply (Some "2")
   ∧ Redis.LRANGE "op:inputs" 0 (-1) (db w) = Redis.Reply ["('a',)"; "('b',)"]
   ∧ Redis.LRANGE "op:outputs" 0 (-1) (db w) = Redis.Reply ["k1"; "k2"])
  ∧ ∃ lines,
      replay fn w
      = (Ok tt, add_lines (str_lit "op was called 2 times:" :: lines) w)
      ∧ length lines = 2%nat.
Proof.
  intros fn w. split; [by split_and!|].
  destruct (proj1 replay_pairs_positionally fn w
              "op" "op:inputs" "op:outputs" (Some "2")
              ["('a',)"; "('b',)"] ["k1"; "k2"]
              eq_refl eq_refl eq_refl eq_refl eq_refl eq_refl)
    as (lines & Hreplay & Hlen & _).
  exists lines. split; [exact Hreplay|exact Hlen].
Defined.

(** An instance of [replay_counter_default]: a counter that is not valid
    UTF-8 and an input entry that is not either. *)
Lemma replay_counter_default_witness :
  let w := set_db {[ "op" := Redis.RString (of_codes [0xff]);
                     "op:inputs" := Redis.RList [of_codes [0xc0]];
                     "op:outputs" := Redis.RList ["k1"] ]} empty_world in
  (Utf8.encode (qualname op_sample) = Some "op"
   ∧ Utf8.encode (qualname op_sample ++ str_lit ":inputs") = Some "op:inputs"
   ∧ Utf8.encode (qualname op_sample ++ str_lit ":outputs") = Some "op:outputs"
   ∧ Redis.GET "op" (db w) = Redis.Reply (Some (of_codes [0xff]))
   ∧ Redis.LRANGE "op:inputs" 0 (-1) (db w) = Redis.Reply [of_codes [0xc0]]
   ∧ Redis.LRANGE "op:outputs" 0 (-1) (db w) = Redis.Reply ["k1"])
  ∧ (replay op_sample w).1 = Ok tt
  ∧ stdout (replay op_sample w).2
    = [str_lit "op was called 0 times:"; str_lit "op(" ++ str_lit "*) -> k1"].
Proof.
  intros w. split; [by split_and!|].
  destruct (replay_counter_default op_sample w
              "op" "op:inputs" "op:outputs" (Some (of_codes [0xff]))
              [of_codes [0xc0]] ["k1"]
              eq_refl eq_refl eq_refl eq_refl eq_refl eq_refl)
    as (Hok & _).
  split; [exact Hok|]. vm_compute. reflexivity.
Defined.

(** An instance of [get_int_lenient]: a key holding [42]. *)
Lemma get_int_lenient_witness :
  let w := set_db {["k" := Redis.RString "42"]} empty_world in
  (encode_arg (PStr (str_lit "k")) = Ok "k"
   ∧ Redis.GET "k" (db w) = Redis.Reply (Some "42"))
  ∧ Cache.get_int (PStr (str_lit "k")) w = (Ok (PInt 42), w).
Proof.
  intros w. split; [by split_and!|].
  exact (proj1 get_int_lenient (PStr (str_lit "k")) w "k" (Some "42")
           eq_refl eq_refl).
Defined.

(** An instance of [get_str_strict]: a key holding bytes that are not valid
    UTF-8. *)
Lemma get_str_strict_witness :
  let w := set_db {["k" := Redis.RString (of_codes [0xe2; 0x82])]} empty_world in
  (encode_arg (PStr (str_lit "k")) = Ok "k"
   ∧ Redis.GET "k" (db w) = Redis.Reply (Some (of_codes [0xe2; 0x82])))
  ∧ Cache.get_str (PStr (str_lit "k")) w = (Raise UnicodeDecodeError, w).
Proof.
  intros w. split; [by split_and!|].
  exact (proj1 get_str_strict (PStr (str_lit "k")) w "k"
           (Some (of_codes [0xe2; 0x82])) eq_refl eq_refl).
Defined.

(** An instance of [get_applies_decoder]: an absent key, the decode
    function [decode_utf8], which raises on [None]. *)
Lemma get_applies_decoder_witness :
  (encode_arg (PStr (str_lit "k")) = Ok "k"
   ∧ Redis.GET "k" (db empty_world) = Redis.Reply None)
  ∧ Cache.get (PStr (str_lit "k")) None empty_world = (Ok PNone, empty_world)
  ∧ Cache.get (PStr (str_lit "k")) (Some decode_utf8) empty_world
    = (Raise AttributeError, empty_world).
Proof.
  split; [by split_and!|].
  exact (get_applies_decoder (PStr (str_lit "k")) decode_utf8 empty_world
           "k" None eq_refl eq_refl).
Defined.

(** An instance of [init_clears_store]: a key written before the
    construction. *)
Lemma init_clears_store_witness :
  let w := set_db {["k" := Redis.RString "v"]} empty_world in
  (encode_arg (PStr (str_lit "k")) = Ok "k"
   ∧ Redis.GET "k" (db w) = Redis.Reply (Some "v"))
  ∧ Cache.get (PStr (str_lit "k")) None (Cache.__init__ w).2
    = (Ok PNone, (Cache.__init__ w).2).
Proof.
  intros w. split; [by split_and!|].
  exact (proj2 (proj2 (init_clears_store w (PStr (str_lit "k")) "k" eq_refl))).
Defined.

(** ** Where the spec and the code part *)



(** C5, as the spec states it, fails for a counter that is valid UTF-8 but
    not a number: with [abc] under the counter key, which neither [int] nor
    the server reads as an integer, the header shows [abc], not [0]. *)
Lemma replay_shows_unparseable_counter :
  let w := set_db {["op" := Redis.RString "abc"]} empty_world in
  py_int (str_lit "abc") = None
  ∧ Redis.string2ll "abc" = None
  ∧ replay op_sample w
    = (Ok tt, add_lines [str_lit "op was called abc times:"] w)
  ∧ stdout (replay op_sample w).2 ≠ [str_lit "op was called 0 times:"].
Proof.
  split_and!; try (vm_compute; reflexivity).
  vm_compute. discriminate.
Qed.

(** ** Instances of the further statements *)

(** An instance of [replay_wrong_type]: a list under the counter key, and a
    string under the inputs key. *)
Lemma replay_wrong_type_witness :
  let w1 := set_db {["op" := Redis.RList ["x"]]} empty_world in
  let w2 := set_db {["op:inputs" := Redis.RString "x"]} empty_world in
  (Utf8.encode (qualname op_sample) = Some "op"
   ∧ Utf8.encode (qualname op_sample ++ str_lit ":inputs") = Some "op:inputs"
   ∧ Utf8.encode (qualname op_sample ++ str_lit ":outputs") = Some "op:outputs"
   ∧ db w1 !! "op" = Some (Redis.RList ["x"])
   ∧ Redis.GET "op" (db w2) = Redis.Reply None
   ∧ db w2 !! "op:inputs" = Some (Redis.RString "x"))
  ∧ replay op_sample w1 = (Raise ResponseError, w1)
  ∧ replay op_sample w2
    = (Raise ResponseError, add_lines [str_lit "op was called 0 times:"] w2).
Proof.
  intros w1 w2. split; [by split_and!|]. split.
  - exact (proj1 (replay_wrong_type op_sample w1 "op" "op:inputs" "op:outputs"
                    eq_refl eq_refl eq_refl) ["x"] eq_refl).
  - exact (proj1 (proj2 (replay_wrong_type op_sample w2 "op" "op:inputs" "op:outputs"
                           eq_refl eq_refl eq_refl)) None "x" eq_refl eq_refl).
Defined.

(** An instance of [stores_keep_other_keys]: a key written by someone else,
    a call of [store] that raises before it draws a key and one that draws
    the first key. *)
Lemma stores_keep_other_keys_witness :
  let w := set_db {["other" := Redis.RString "v"]} empty_world in
  let calls := [([], []); ([PInt 1], [])] in
  (encode_arg (PStr (str_lit "other")) = Ok "other"
   ∧ generated_keys w (run_calls Cache.store calls w).2
     = ["12345678-9abc-4ef0-9234-56789abcdef0"]
   ∧ "other" ∉ generated_keys w (run_calls Cache.store calls w).2)
  ∧ db (run_calls Cache.store calls w).2 !! "other" = Some (Redis.RString "v").
Proof.
  intros w calls.
  assert (generated_keys w (run_calls Cache.store calls w).2
          = ["12345678-9abc-4ef0-9234-56789abcdef0"]) as Hgen
    by (vm_compute; reflexivity).
  assert ("other" ∉ generated_keys w (run_calls Cache.store calls w).2) as Hfresh.
  { rewrite Hgen, not_elem_of_cons. split; [discriminate|apply not_elem_of_nil]. }
  split; [by split_and!|].
  refine (proj1 (stores_keep_other_keys calls w (PStr (str_lit "other")) "other"
                   eq_refl _ _ _ Hfresh)); discriminate.
Defined.

(** An instance of [refused_store_writes_only_counter]: [store(None)] on a
    fresh [Cache]. *)
Lemma refused_store_writes_only_counter_witness :
  let w := (Cache.__init__ empty_world).2 in
  (instrumented (db w) 0 [] []
   ∧ bind_data [PNone] [] = Ok PNone ∧ encode_arg PNone = Raise DataError)
  ∧ (call Cache.store [PNone] [] w).1 = Raise DataError
  ∧ db (call Cache.store [PNone] [] w).2 = {["Cache.store" := Redis.RString "1"]}.
Proof.
  intros w.
  assert (instrumented (db w) 0 [] []) as Hinv by (by split_and!).
  split; [by split_and!|].
  destruct (refused_store_writes_only_counter [PNone] [] w 0 [] [] DataError Hinv
              (or_intror (ex_intro _ PNone (conj eq_refl eq_refl))))
    as (Hr & Hdb & _).
  split; [exact Hr|]. rewrite Hdb. reflexivity.
Defined.

(** An instance of [history_failure_after_write]: a string under the
    outputs key and [store(5)]. *)
Lemma history_failure_after_write_witness :
  let w := set_db {["Cache.store:outputs" := Redis.RString "x"]} empty_world in
  (counter_holds (db w) 0
   ∧ list_holds "Cache.store:inputs" (db w) []
   ∧ db w !! "Cache.store:outputs" = Some (Redis.RString "x")
   ∧ bind_data [PInt 5] [] = Ok (PInt 5)
   ∧ encode_arg (PInt 5) = Ok "5"
   ∧ Utf8.encode (tuple_str [PInt 5]) = Some "(5,)")
  ∧ (call Cache.store [PInt 5] [] w).1 = Raise ResponseError
  ∧ db (call Cache.store [PInt 5] [] w).2 !! "12345678-9abc-4ef0-9234-56789abcdef0"
    = Some (Redis.RString "5").
Proof.
  intros w. split; [by split_and!|].
  destruct (history_failure_after_write [PInt 5] [] w 0 [] "x" "5" "(5,)" (PInt 5)
              eq_refl eq_refl eq_refl eq_refl eq_refl eq_refl) as (Hr & Hdb).
  split; [exact Hr|]. rewrite Hdb. reflexivity.
Defined.

(** An instance of [failed_increment_skips_method]: a text that is no
    integer under the counter key of [Cache.store]. *)
Lemma failed_increment_skips_method_witness :
  let w := set_db {["Cache.store" := Redis.RString "abc"]} empty_world in
  (Utf8.encode (qualname (call_history Cache.store_body)) = Some "Cache.store"
   ∧ db w !! "Cache.store" = Some (Redis.RString "abc")
   ∧ Redis.string2ll "abc" = None)
  ∧ call Cache.store [PInt 5] [] w = (Raise ResponseError, w).
Proof.
  intros w. split; [by split_and!|].
  exact (failed_increment_skips_method (call_history Cache.store_body) [PInt 5] [] w
           "Cache.store" eq_refl
           (or_intror (ex_intro _ "abc" (conj eq_refl eq_refl)))).
Defined.

(** An instance of [count_calls_counts_from]: the method [op], which writes
    nothing, and a counter that holds 41. *)
Lemma count_calls_counts_from_witness :
  let w := set_db {["op" := Redis.RString "41"]} empty_world in
  let calls := [([PStr (str_lit "a")], []); ([], [])] in
  (Utf8.encode (qualname op_sample) = Some "op"
   ∧ (∀ args kwargs w0, db (call op_sample args kwargs w0).2 !! "op" = db w0 !! "op")
   ∧ counter_at "op" (db w) 41
   ∧ - 2 ^ 63 <= 41
   ∧ 41 + Z.of_nat (length calls) <= 2 ^ 63 - 1)
  ∧ counter_at "op" (db (run_calls (count_calls op_sample) calls w).2) 43.
Proof.
  intros w calls.
  assert (∀ args kwargs w0,
            db (call op_sample args kwargs w0).2 !! "op" = db w0 !! "op") as Hframe
    by reflexivity.
  assert (counter_at "op" (db w) 41) as Hn by (left; reflexivity).
  assert (- 2 ^ 63 <= 41) as Hlo by (vm_compute; discriminate).
  assert (41 + Z.of_nat (length calls) <= 2 ^ 63 - 1) as Hhi
    by (vm_compute; discriminate).
  split; [by split_and!|].
  exact (count_calls_counts_from op_sample "op" 41 calls w eq_refl Hframe Hn Hlo Hhi).
Defined.

(** An instance of [call_history_appends_pair]: the method [op] called with
    ["a"] on an empty database. *)
Lemma call_history_appends_pair_witness :
  (Utf8.encode (qualname op_sample ++ str_lit ":inputs") = Some "op:inputs"
   ∧ Utf8.encode (qualname op_sample ++ str_lit ":outputs") = Some "op:outputs"
   ∧ call op_sample [PStr (str_lit "a")] [] empty_world
     = (Ok (PStr (str_lit "k1")), empty_world)
   ∧ list_holds "op:inputs" (db empty_world) []
   ∧ list_holds "op:outputs" (db empty_world) [])
  ∧ call (call_history op_sample) [PStr (str_lit "a")] [] empty_world
    = (Ok (PStr (str_lit "k1")),
       set_db (<["op:outputs" := Redis.RList ["k1"]]>
                 (<["op:inputs" := Redis.RList ["('a',)"]]> ∅)) empty_world).
Proof.
  split; [by split_and!|].
  exact (call_history_appends_pair op_sample [PStr (str_lit "a")] [] empty_world
           empty_world (PStr (str_lit "k1")) "op:inputs" "op:outputs"
           [] [] eq_refl eq_refl eq_refl eq_refl eq_refl).
Defined.

(** An instance of [init_resets_instrumentation]: a server that counted 7
    calls of [store] before the construction. *)
Lemma init_resets_instrumentation_witness :
  let w := set_db {["Cache.store" := Redis.RString "7"]} empty_world in
  let w0 := (Cache.__init__ w).2 in
  (Utf8.encode (qualname Cache.store) = Some "Cache.store"
   ∧ Utf8.encode (qualname Cache.store ++ str_lit ":inputs") = Some "Cache.store:inputs"
   ∧ Utf8.encode (qualname Cache.store ++ str_lit ":outputs")
     = Some "Cache.store:outputs")
  ∧ replay Cache.store w0
    = (Ok tt, add_lines [str_lit "Cache.store was called 0 times:"] w0)
  ∧ Redis.GET "Cache.store" (db (call Cache.store [PInt 1] [] w0).2)
    = Redis.Reply (Some "1").
Proof.
  intros w w0. split; [by split_and!|].
  exact (init_resets_instrumentation Cache.store w "Cache.store" "Cache.store:inputs"
           "Cache.store:outputs" [PInt 1] [] eq_refl eq_refl eq_refl).
Defined.

(** An instance of [store_writes_under_returned_key]: [store("a")] on a
    server that holds other data. *)
Lemma store_writes_under_returned_key_witness :
  let w := set_db {["other" := Redis.RString "v"]} empty_world in
  let key := PStr (str_lit "12345678-9abc-4ef0-9234-56789abcdef0") in
  let w' := (call Cache.store [PStr (str_lit "a")] [] w).2 in
  call Cache.store [PStr (str_lit "a")] [] w = (Ok key, w')
  ∧ Cache.get key None w' = (Ok (PBytes "a"), w').
Proof.
  intros w key w'.
  assert (call Cache.store [PStr (str_lit "a")] [] w = (Ok key, w')) as Hcall
    by (vm_compute; reflexivity).
  split; [exact Hcall|].
  destruct (store_writes_under_returned_key [PStr (str_lit "a")] [] w w' key Hcall)
    as (data & v & Hdata & Hv & _ & Hget).
  injection Hdata as <-. injection Hv as <-. exact Hget.
Defined.
